(** * autoscrape: the Selenium tagger (autoscrape/backends/selenium/tags.py)

    A shallow embedding of [Tagger]: the browser-side script of
    [tag_from_element] (the [getPathTo] tree walk), and the enumerations
    [get_inputs], [get_forms] and [get_buttons] built on it.

    The browser is modelled by a snapshot of the DOM (a tree of nodes), a
    Selenium [WebElement] by the position of a node in that tree, and the
    Python logger by a list of records.  Python code runs in a small
    state-and-exception monad over that world. *)

From Stdlib Require Import Ascii String NArith DecimalString DecimalNat.
From stdpp Require Import base option list strings gmap.

Set Warnings "-register-all".

Open Scope string_scope.
Open Scope list_scope.

(** ** Strings *)

(** [String.prototype.toLowerCase], on the ASCII range: the letters A-Z are
    mapped to a-z and every other character is kept.  (Element names of HTML
    documents are ASCII.) *)
Definition ascii_toLowerCase (c : ascii) : ascii :=
  let n := N_of_ascii c in
  if ((65 <=? n) && (n <=? 90))%N then ascii_of_N (n + 32) else c.

Fixpoint toLowerCase (s : string) : string :=
  match s with
  | EmptyString => EmptyString
  | String c s' => String (ascii_toLowerCase c) (toLowerCase s')
  end.

(** JavaScript's conversion of a number to a string, on the counters used
    here (non-negative integers): the decimal digits. *)
Definition js_string_of_nat (n : nat) : string :=
  NilEmpty.string_of_uint (Nat.to_uint n).

(** [Array.prototype.join]. *)
Definition join (sep : string) (parts : list string) : string :=
  String.concat sep parts.

(** ** The DOM *)

(** [Node.nodeType]. *)
Inductive NodeType :=
| ELEMENT_NODE
| ATTRIBUTE_NODE
| TEXT_NODE
| CDATA_SECTION_NODE
| PROCESSING_INSTRUCTION_NODE
| COMMENT_NODE
| DOCUMENT_NODE
| DOCUMENT_TYPE_NODE
| DOCUMENT_FRAGMENT_NODE.

#[global] Instance NodeType_eq_dec : EqDecision NodeType.
Proof. solve_decision. Defined.

(** A node of the DOM tree with what the tagger reads of it: its type and
    name, its attributes, what the driver answers to [is_displayed] and
    [is_enabled], and its children in document order. *)
Inductive Node := mkNode {
  nodeType : NodeType;
  nodeName : string;
  attributes : list (string * string);
  displayed : bool;
  enabled : bool;
  childNodes : list Node
}.

Definition is_element (n : Node) : bool :=
  bool_decide (nodeType n = ELEMENT_NODE).

(** A [WebElement] is a reference to a node of the page.  It is modelled by
    the position of the node: the child indices on the way from the node up
    to the root of the tree, nearest first.  [[]] is the root itself and
    [i :: parent] the [i]-th child of [parent]: [parentNode] of
    [i :: parent] is [parent], and that of the root is [null]. *)
Definition WebElement := list nat.

(** The node a reference points to, if the page (still) has one there. *)
Fixpoint resolve (doc : Node) (el : WebElement) : option Node :=
  match el with
  | [] => Some doc
  | i :: parent =>
      match resolve doc parent with
      | Some p => childNodes p !! i
      | None => None
      end
  end.

(** The siblings before [el], nearest first: the nodes that repeated
    [previousSibling] visits. *)
Definition previousSiblings (doc : Node) (el : WebElement) : list Node :=
  match el with
  | [] => []
  | i :: parent =>
      match resolve doc parent with
      | Some p => reverse (take i (childNodes p))
      | None => []
      end
  end.

(** ** Exceptions, the world and the monad *)

Inductive Exception :=
| JavascriptException
| StaleElementReferenceException
| InvalidSelectorException.

Inductive Result (A : Type) :=
| Ok (a : A)
| Raise (e : Exception).
Arguments Ok {A} a.
Arguments Raise {A} e.

Inductive LogLevel := DEBUG | WARNING.

(** A record of the [AUTOSCRAPE] logger: level, format string and the
    element the message is about. *)
Record LogRecord := mkLog {
  levelname : LogLevel;
  msg : string;
  arg : WebElement
}.

Record World := mkWorld {
  page : Node;
  log : list LogRecord
}.

Definition M (A : Type) : Type := World -> Result A * World.

Definition ret {A} (a : A) : M A := fun w => (Ok a, w).

Definition bind {A B} (m : M A) (k : A -> M B) : M B :=
  fun w =>
    match m w with
    | (Ok a, w') => k a w'
    | (Raise e, w') => (Raise e, w')
    end.

Definition raise {A} (e : Exception) : M A := fun w => (Raise e, w).

Definition lift {A} (r : Result A) : M A := fun w => (r, w).

Definition get_page : M Node := fun w => (Ok (page w), w).

Definition logger_warn (m : string) (el : WebElement) : M unit :=
  fun w => (Ok tt, {| page := page w; log := log w ++ [mkLog WARNING m el] |}).

#[global] Instance M_ret : MRet M := @ret.
#[global] Instance M_bind : MBind M := fun A B k m => bind m k.

(** ** [tag_from_element] *)

(** What Python passes as [arguments[0]]: a [WebElement], or a plain value
    (JSON) that the driver hands to the script as it is. *)
Inductive ScriptArg :=
| ArgElement (el : WebElement)
| ArgNone
| ArgBool (b : bool)
| ArgInt (z : Z)
| ArgStr (s : string).

(** The inner loop of the script, lines 48-52:
    [[
      var sib = el, nth = 1;
      while (sib = sib.previousElementSibling) {
          if (sib.nodeName.toLowerCase() == selector) nth++;
      }
    ]]
    [sibs] are the siblings before [el], nearest first;
    [previousElementSibling] steps over those that are not elements. *)
Fixpoint nth_loop (selector : string) (sibs : list Node) (nth : nat) : nat :=
  match sibs with
  | [] => nth
  | sib :: sibs' =>
      if is_element sib then
        if String.eqb (toLowerCase (nodeName sib)) selector
        then nth_loop selector sibs' (S nth)
        else nth_loop selector sibs' nth
      else nth_loop selector sibs' nth
  end.

(** The outer loop, lines 36-62:
    [[
      while (el.nodeType === Node.ELEMENT_NODE) {
          var selector = el.nodeName.toLowerCase();
          ...
          selector += ":nth-of-type("+nth+")";
          path.unshift(selector);
          el = el.parentNode;
      }
    ]]
    [el.parentNode] is the tail of the position.  When it is [null] (the
    root was an element) the next test reads [null.nodeType], a
    [TypeError], which the driver reports as a [JavascriptException]. *)
Fixpoint getPathTo_loop (doc : Node) (el : WebElement) (path : list string)
  : Result (list string) :=
  match resolve doc el with
  | None => Raise StaleElementReferenceException
  | Some n =>
      if is_element n then
        let selector := toLowerCase (nodeName n) in
        let nth := nth_loop selector (previousSiblings doc el) 1 in
        let selector := selector +:+ ":nth-of-type(" +:+ js_string_of_nat nth +:+ ")" in
        let path := selector :: path in
        match el with
        | [] => Raise JavascriptException
        | _ :: parent => getPathTo_loop doc parent path
        end
      else Ok path
  end.

(** [getPathTo], lines 32-64.  [None] is JavaScript's [undefined], which
    the driver hands back to Python as [None]. *)
Definition getPathTo (doc : Node) (a : ScriptArg) : Result (option string) :=
  match a with
  | ArgElement el =>
      match resolve doc el with
      | None => Raise StaleElementReferenceException
      | Some n =>
          if negb (is_element n) then Ok None
          else
            match getPathTo_loop doc el [] with
            | Ok path => Ok (Some (join " > " path))
            | Raise e => Raise e
            end
      end
  | _ => Ok None
  end.

(** [self.driver.execute_script(script, element)] for the script above: it
    reads the page and changes nothing. *)
Definition execute_script (a : ScriptArg) : M (option string) :=
  doc ← get_page; lift (getPathTo doc a).

Definition tag_from_element (element : ScriptArg) : M (option string) :=
  execute_script element.

(** ** The DOM query helper

    [Tagger] inherits [elements_by_path] from [Dom]
    (autoscrape/backends/selenium/dom.py), which hands an XPath expression
    to the driver.  The tagger calls it with the expression alone, so the
    driver evaluates it with the document as context node. *)

Inductive Axis :=
| AxisChild        (* [/name]  *)
| AxisDescendant.  (* [//name] *)

(** One step of a location path: an element name and, optionally, a test
    [[@attribute='value']]. *)
Record Step := mkStep {
  axis : Axis;
  name_test : string;
  attribute_test : option (string * string)
}.

Definition LocationPath := list Step.

Fixpoint span (p : ascii -> bool) (s : string) : string * string :=
  match s with
  | EmptyString => (EmptyString, EmptyString)
  | String c s' =>
      if p c then let (a, b) := span p s' in (String c a, b)
      else (EmptyString, s)
  end.

Definition is_name_char (c : ascii) : bool :=
  let n := N_of_ascii c in
  (((65 <=? n) && (n <=? 90)) || ((97 <=? n) && (n <=? 122)) ||
   ((48 <=? n) && (n <=? 57)) || (n =? 45) || (n =? 95))%N.

Definition parse_axis (first : bool) (s : string) : option (Axis * string) :=
  match s with
  | String "/" (String "/" s') => Some (AxisDescendant, s')
  | String "/" s' => Some (AxisChild, s')
  | _ => if first then Some (AxisChild, s) else None
  end.

Definition parse_attribute_test (s : string)
  : option (option (string * string) * string) :=
  match s with
  | String "[" (String "@" s1) =>
      let (a, s2) := span is_name_char s1 in
      match a, s2 with
      | String _ _, String "=" (String "'" s3) =>
          let (v, s4) := span (fun c => negb (Ascii.eqb c "'")) s3 in
          match s4 with
          | String "'" (String "]" s5) => Some (Some (a, v), s5)
          | _ => None
          end
      | _, _ => None
      end
  | String "[" _ => None
  | _ => Some (None, s)
  end.

(** The steps of one location path, up to the end of the expression or the
    next [|].  Every round consumes at least one character, so the length
    of the expression is fuel enough. *)
Fixpoint parse_steps (fuel : nat) (first : bool) (s : string)
  : option (LocationPath * string) :=
  match fuel with
  | O => None
  | S fuel' =>
      match parse_axis first s with
      | None => None
      | Some (ax, s1) =>
          let (nm, s2) := span is_name_char s1 in
          match nm, parse_attribute_test s2 with
          | String _ _, Some (at_, s3) =>
              let st := mkStep ax nm at_ in
              match s3 with
              | EmptyString => Some ([st], s3)
              | String "|" _ => Some ([st], s3)
              | _ =>
                  match parse_steps fuel' false s3 with
                  | Some (sts, rest) => Some (st :: sts, rest)
                  | None => None
                  end
              end
          | _, _ => None
          end
      end
  end.

(** A leading [.] is the context node. *)
Definition parse_path (fuel : nat) (s : string) : option (LocationPath * string) :=
  match s with
  | String "." s' => parse_steps fuel false s'
  | _ => parse_steps fuel true s
  end.

Fixpoint parse_union (fuel : nat) (s : string) : option (list LocationPath) :=
  match fuel with
  | O => None
  | S fuel' =>
      match parse_path (String.length s) s with
      | Some (p, EmptyString) => Some [p]
      | Some (p, String "|" rest) =>
          match parse_union fuel' rest with
          | Some ps => Some (p :: ps)
          | None => None
          end
      | _ => None
      end
  end.

Definition parse_xpath (s : string) : option (list LocationPath) :=
  parse_union (String.length s) s.

(** [@a]: the value of the first attribute named [a]. *)
Fixpoint getAttribute (a : string) (attrs : list (string * string)) : option string :=
  match attrs with
  | [] => None
  | (k, v) :: attrs' => if String.eqb k a then Some v else getAttribute a attrs'
  end.

(** The node test of a step.  In an HTML document a name test matches the
    elements of that name whatever the case [nodeName] reports it in. *)
Definition node_test (doc : Node) (st : Step) (el : WebElement) : bool :=
  match resolve doc el with
  | None => false
  | Some n =>
      is_element n &&
      String.eqb (toLowerCase (nodeName n)) (name_test st) &&
      match attribute_test st with
      | None => true
      | Some (a, v) =>
          match getAttribute a (attributes n) with
          | Some v' => String.eqb v' v
          | None => false
          end
      end
  end.

(** [el] and its ancestors, nearest first. *)
Fixpoint ancestors_or_self (el : WebElement) : list WebElement :=
  el :: match el with
        | [] => []
        | _ :: parent => ancestors_or_self parent
        end.

(** Whether the location path whose steps, last first, are [rsteps]
    selects [el] when it is evaluated at the document. *)
Fixpoint selects (doc : Node) (rsteps : list Step) (el : WebElement) : bool :=
  match rsteps with
  | [] => bool_decide (el = [])
  | st :: before =>
      node_test doc st el &&
      match el with
      | [] => false
      | _ :: parent =>
          match axis st with
          | AxisChild => selects doc before parent
          | AxisDescendant => existsb (selects doc before) (ancestors_or_self parent)
          end
      end
  end.

(** The nodes of the subtree at [el], in document order. *)
Fixpoint descendants_or_self (n : Node) (el : WebElement) : list WebElement :=
  el :: (fix children (cs : list Node) (i : nat) : list WebElement :=
           match cs with
           | [] => []
           | c :: cs' => descendants_or_self c (i :: el) ++ children cs' (S i)
           end) (childNodes n) 0.

Definition xpath_selects (doc : Node) (paths : list LocationPath) (el : WebElement) : bool :=
  existsb (fun p => selects doc (reverse p) el) paths.

(** Modelled from the spec: [Dom.elements_by_path], which is not part of
    this file's source.  [elementsByPath(pathExpression)] returns the
    sequence of elements that a structural path expression selects; the
    expressions are location paths over element names, [/] and [//], with
    an optional [[@attribute='value']] test, combined with [|].  The result
    is a node set: every selected element once, in document order.  An
    expression outside this fragment is reported as invalid. *)
Definition elements_by_path (x_path : string) : M (list WebElement) :=
  doc ← get_page;
  match parse_xpath x_path with
  | None => raise InvalidSelectorException
  | Some paths =>
      mret (List.filter (xpath_selects doc paths) (descendants_or_self doc []))
  end.

(** [element.is_displayed()] and [element.is_enabled()]. *)
Definition is_displayed (element : WebElement) : M bool :=
  doc ← get_page;
  match resolve doc element with
  | Some n => mret (displayed n)
  | None => raise StaleElementReferenceException
  end.

Definition is_enabled (element : WebElement) : M bool :=
  doc ← get_page;
  match resolve doc element with
  | Some n => mret (enabled n)
  | None => raise StaleElementReferenceException
  end.

(** ** The enumerations *)

(** Python's [not tag] for what [tag_from_element] returns: true of [None]
    and of the empty string. *)
Definition py_not (tag : option string) : bool :=
  match tag with
  | Some (String _ _) => false
  | _ => true
  end.

(** The string a truthy tag is. *)
Definition py_str (tag : option string) : string := default "" tag.

(** The loop of [get_inputs], lines 111-117. *)
Fixpoint get_inputs_loop (elems : list WebElement) (tags : list string)
  : M (list string) :=
  match elems with
  | [] => mret tags
  | input :: elems' =>
      input_tag ← tag_from_element (ArgElement input);
      if py_not input_tag then
        logger_warn "No tag for input %s" input;;
        get_inputs_loop elems' tags
      else
        get_inputs_loop elems' (tags ++ [py_str input_tag])
  end.

(** The XPath expression of [get_inputs], lines 98-108.  Of the form only
    its truth value is used: [elem = form] is assigned and never read. *)
Definition get_inputs_x_path (form : option WebElement) (itype : option string)
  : string :=
  let x_path :=
    match itype with
    | Some "select" => "//select|select"
    | Some (String _ _ as itype) =>
        "//input[@type='" +:+ itype +:+ "']|input[@type='" +:+ itype +:+ "']"
    | _ => "//input|input"
    end in
  match form with
  | Some _ => "." +:+ x_path
  | None => x_path
  end.

Definition get_inputs (form : option WebElement) (itype : option string)
  : M (list string) :=
  elems ← elements_by_path (get_inputs_x_path form itype);
  get_inputs_loop elems [].

(** [not elem.is_displayed() or not elem.is_enabled()]: [or] asks
    [is_enabled] only of a displayed element. *)
Definition not_displayed_or_not_enabled (elem : WebElement) : M bool :=
  d ← is_displayed elem;
  if negb d then mret true
  else e ← is_enabled elem; mret (negb e).

(** The loop of [get_forms], lines 132-146. *)
Fixpoint get_forms_loop (forms : list WebElement)
  (tags : gmap string (list (list string))) : M (gmap string (list (list string))) :=
  match forms with
  | [] => mret tags
  | elem :: forms' =>
      hidden ← not_displayed_or_not_enabled elem;
      if (hidden : bool) then get_forms_loop forms' tags
      else
        tag ← tag_from_element (ArgElement elem);
        if py_not tag then
          logger_warn "No tag for element %s" elem;;
          get_forms_loop forms' tags
        else
          text ← get_inputs (Some elem) (Some "text");
          select ← get_inputs (Some elem) (Some "select");
          checkbox ← get_inputs (Some elem) (Some "checkbox");
          date ← get_inputs (Some elem) (Some "date");
          get_forms_loop forms' (<[py_str tag := [text; select; checkbox; date]]> tags)
  end.

Definition get_forms : M (gmap string (list (list string))) :=
  forms ← elements_by_path "//form";
  get_forms_loop forms ∅.

(** The loop of [get_buttons], lines 158-167. *)
Fixpoint get_buttons_loop (btns : list WebElement) (tags : list string)
  : M (list string) :=
  match btns with
  | [] => mret tags
  | elem :: btns' =>
      hidden ← not_displayed_or_not_enabled elem;
      if (hidden : bool) then get_buttons_loop btns' tags
      else
        tag ← tag_from_element (ArgElement elem);
        if py_not tag then
          logger_warn "No tag for element %s" elem;;
          get_buttons_loop btns' tags
        else
          get_buttons_loop btns' (tags ++ [py_str tag])
  end.

Definition get_buttons_x_path : string :=
  join "|" ["//form//a"; "//button"; "//input[@type='button']";
            "//input[@type='submit']"; "//table//a"].

Definition get_buttons (in_form : bool) : M (list string) :=
  btns ← elements_by_path get_buttons_x_path;
  get_buttons_loop btns [].

(** ** Example pages *)

Definition element (name : string) (attrs : list (string * string))
  (shown on : bool) (children : list Node) : Node :=
  mkNode ELEMENT_NODE name attrs shown on children.

Definition text_node : Node := mkNode TEXT_NODE "#text" [] false false [].

Definition document (children : list Node) : Node :=
  mkNode DOCUMENT_NODE "#document" [] false false children.

Definition input_ (type : string) : Node :=
  element "INPUT" [("type", type)] true true [].

(** A page with two forms, each with one text input; the second form also
    has a checkbox, a select and a submit input, and a text node sits
    between the two forms. *)
Definition two_forms_page : Node :=
  document
    [element "HTML" [] true true
       [element "HEAD" [] false true [];
        element "BODY" [] true true
          [element "FORM" [] true true [input_ "text"];
           text_node;
           element "FORM" [] true true
             [input_ "text"; input_ "checkbox";
              element "SELECT" [] true true []; input_ "submit"]]]].

(** A page with three [<div>] siblings and a [<span>] among them. *)
Definition divs_page : Node :=
  document
    [element "HTML" [] true true
       [element "HEAD" [] false true [];
        element "BODY" [] true true
          [element "DIV" [] true true [];
           element "SPAN" [] true true [];
           text_node;
           element "DIV" [] true true [];
           element "DIV" [] true true [element "P" [] true true []]]]].

(** A page with a hidden form followed by a visible one. *)
Definition hidden_form_page : Node :=
  document
    [element "HTML" [] true true
       [element "BODY" [] true true
          [element "FORM" [] false true [input_ "text"];
           element "FORM" [] true true
             [input_ "text";
              element "BUTTON" [] true true [];
              element "BUTTON" [] false false [];
              element "A" [] true true []]]]].

(** A page with a form that is displayed but disabled, followed by a form
    that is displayed and enabled; the first form has a button that is
    displayed and disabled, the second an enabled one. *)
Definition disabled_form_page : Node :=
  document
    [element "HTML" [] true true
       [element "BODY" [] true true
          [element "FORM" [] true false
             [input_ "text"; element "BUTTON" [] true false []];
           element "FORM" [] true true
             [input_ "text"; element "BUTTON" [] true true []]]]].

(** A page where a node that is not an element is reported as displayed
    and enabled. *)
Definition shown_text_page : Node :=
  document
    [element "HTML" [] true true
       [element "BODY" [] true true
          [element "FORM" [] true true [input_ "text"];
           mkNode TEXT_NODE "#text" [] true true [];
           element "BUTTON" [] true true []]]].

Definition start (doc : Node) : World := mkWorld doc [].

(** ** The path of an element, as the specification words it *)

(** Whether [el] refers to an element node of the page. *)
Definition element_at (doc : Node) (el : WebElement) : bool :=
  match resolve doc el with
  | Some n => is_element n
  | None => false
  end.

(** The nodes on the way from [el] up to the root, the root left out,
    nearest first. *)
Fixpoint path_to_root (el : WebElement) : list WebElement :=
  match el with
  | [] => []
  | _ :: parent => el :: path_to_root parent
  end.

(** The tag name a level shows: the node's name in lower case. *)
Definition tagname (n : Node) : string := toLowerCase (nodeName n).

(** Whether a sibling is an element with the tag name [name]. *)
Definition shares_tag_name (name : string) (sib : Node) : bool :=
  is_element sib && String.eqb (tagname sib) name.

(** The 1-based ordinal of a node among the siblings before it that share
    its tag name. *)
Definition ordinal (doc : Node) (el : WebElement) : nat :=
  match el, resolve doc el with
  | i :: parent, Some n =>
      match resolve doc parent with
      | Some p => S (length (List.filter (shares_tag_name (tagname n)) (take i (childNodes p))))
      | None => 1
      end
  | _, _ => 1
  end.

(** One level: [tagname:nth-of-type(N)]. *)
Definition level (doc : Node) (el : WebElement) : string :=
  match resolve doc el with
  | Some n => tagname n +:+ ":nth-of-type(" +:+ js_string_of_nat (ordinal doc el) +:+ ")"
  | None => ""
  end.

(** The levels from the root down to [el], joined with [" > "]. *)
Definition css_path (doc : Node) (el : WebElement) : string :=
  join " > " (map (level doc) (reverse (path_to_root el))).

(** The same with the node's name taken as the DOM reports it. *)
Definition level_as_found (doc : Node) (el : WebElement) : string :=
  match resolve doc el with
  | Some n => nodeName n +:+ ":nth-of-type(" +:+ js_string_of_nat (ordinal doc el) +:+ ")"
  | None => ""
  end.

Definition css_path_as_found (doc : Node) (el : WebElement) : string :=
  join " > " (map (level_as_found doc) (reverse (path_to_root el))).

(** The levels the walk of [getPathTo] collects from [el]: it stops at the
    first node that is not an element. *)
Fixpoint levels_from (doc : Node) (el : WebElement) : list string :=
  match el with
  | [] => []
  | _ :: parent =>
      if element_at doc el then levels_from doc parent ++ [level doc el] else []
  end.

Definition tag_of (doc : Node) (el : WebElement) : string :=
  join " > " (levels_from doc el).

(** A [<div>] element. *)
Definition is_div (n : Node) : bool :=
  is_element n && String.eqb (tagname n) "div".

(** [el] is the [k]-th [<div>] of its parent: a [<div>] with [k - 1]
    [<div>] siblings before it. *)
Definition kth_div (doc : Node) (el : WebElement) (k : nat) : Prop :=
  ∃ i parent p n,
    el = i :: parent ∧ resolve doc parent = Some p ∧
    childNodes p !! i = Some n ∧ is_div n = true ∧
    k = length (List.filter is_div (take i (childNodes p))) + 1.

(** An argument that is not an element node: a node of another kind, or a
    value that is no node at all. *)
Definition not_an_element_node (doc : Node) (a : ScriptArg) : Prop :=
  match a with
  | ArgElement el => ∃ n, resolve doc el = Some n ∧ nodeType n ≠ ELEMENT_NODE
  | _ => True
  end.

(** ** The enumerations, as the specification words them *)

(** Displayed and enabled: what keeps an element from being skipped. *)
Definition displayed_and_enabled (doc : Node) (el : WebElement) : bool :=
  match resolve doc el with
  | Some n => displayed n && enabled n
  | None => false
  end.

(** The elements an expression selects on a page, in document order. *)
Definition selected (doc : Node) (paths : list LocationPath) : list WebElement :=
  List.filter (xpath_selects doc paths) (descendants_or_self doc []).

(** The four input kinds of a form descriptor, in their order. *)
Definition input_kinds : list string := ["text"; "select"; "checkbox"; "date"].

(** An element with the tag name [name]. *)
Definition named (doc : Node) (name : string) (el : WebElement) : bool :=
  match resolve doc el with
  | Some n => is_element n && String.eqb (tagname n) name
  | None => false
  end.

(** An [<input>] whose [type] attribute is [type]. *)
Definition input_of_type (doc : Node) (type : string) (el : WebElement) : bool :=
  match resolve doc el with
  | Some n =>
      is_element n && String.eqb (tagname n) "input" &&
      bool_decide (getAttribute "type" (attributes n) = Some type)
  | None => false
  end.

(** Inside an element named [name]: some proper ancestor has that name. *)
Definition inside (doc : Node) (name : string) (el : WebElement) : bool :=
  existsb (named doc name) (tail (ancestors_or_self el)).

(** What [get_buttons] asks for: anchors inside forms, buttons, button
    inputs, submit inputs, anchors inside tables. *)
Definition button_like (doc : Node) (el : WebElement) : bool :=
  (named doc "a" el && inside doc "form" el) ||
  named doc "button" el ||
  input_of_type doc "button" el ||
  input_of_type doc "submit" el ||
  (named doc "a" el && inside doc "table" el).

(** The location paths of the expressions the tagger uses. *)
Definition forms_paths : list LocationPath :=
  [[mkStep AxisDescendant "form" None]].

Definition buttons_paths : list LocationPath :=
  [[mkStep AxisDescendant "form" None; mkStep AxisDescendant "a" None];
   [mkStep AxisDescendant "button" None];
   [mkStep AxisDescendant "input" (Some ("type", "button"))];
   [mkStep AxisDescendant "input" (Some ("type", "submit"))];
   [mkStep AxisDescendant "table" None; mkStep AxisDescendant "a" None]].

Definition input_paths (kind : string) : list LocationPath :=
  if String.eqb kind "select" then
    [[mkStep AxisDescendant "select" None]; [mkStep AxisChild "select" None]]
  else
    [[mkStep AxisDescendant "input" (Some ("type", kind))];
     [mkStep AxisChild "input" (Some ("type", kind))]].

(** The value [get_forms] stores under a form's tag. *)
Definition form_inputs (doc : Node) : list (list string) :=
  map (λ kind, map (tag_of doc) (selected doc (input_paths kind))) input_kinds.

(** ** Skipping an element that has no tag *)

(** The tag computation for [e] yields an absent value: it returns, and
    Python's [not tag] holds of what it returns. *)
Definition no_tag (w : World) (e : WebElement) : Prop :=
  ∃ tag, tag_from_element (ArgElement e) w = (Ok tag, w) ∧ py_not tag = true.

(** A loop skips [e]: with [e] among the elements it ends as it does
    without, with the same collection or the same exception. *)
Definition skips {T} (loop : list WebElement → T → M T) (w : World)
  (before : list WebElement) (e : WebElement) (after : list WebElement) : Prop :=
  ∀ tags,
    fst (loop (before ++ e :: after) tags w) = fst (loop (before ++ after) tags w).

(** A loop that returns has logged the warning [m] about [e]. *)
Definition warns {T} (loop : list WebElement → T → M T) (m : string) (w : World)
  (before : list WebElement) (e : WebElement) (after : list WebElement) : Prop :=
  ∀ tags r w',
    loop (before ++ e :: after) tags w = (Ok r, w') →
    mkLog WARNING m e ∈ log w'.

(** A computation that reads the page only: what it returns depends on the
    page and not on the log, it leaves the page as it is and adds records
    to the log. *)
Definition frames {A} (m : M A) : Prop :=
  ∀ p, ∃ r extra, ∀ lg, m (mkWorld p lg) = (r, mkWorld p (lg ++ extra)).

(** ** The rest of the tagger *)

Definition logger_debug (m : string) (el : WebElement) : M unit :=
  fun w => (Ok tt, {| page := page w; log := log w ++ [mkLog DEBUG m el] |}).

(** [clickable_sanity_check], lines 73-77.  [and] asks [is_enabled] only of
    an element that is not displayed.  The check of [TaggerBase] that it
    ends with is not part of this file's source and is taken as a
    parameter. *)
Definition clickable_sanity_check
  (super_clickable_sanity_check : WebElement → M bool) (element : WebElement)
  : M bool :=
  d ← is_displayed element;
  neither ← (if negb d then en ← is_enabled element; mret (negb en)
             else mret false);
  if (neither : bool) then
    logger_debug "Skipping non-displayed: %s" element;;
    mret false
  else super_clickable_sanity_check element.

(** [get_clickable], lines 79-90: the expression, handed to
    [TaggerBase.get_clickable], which is taken as a parameter. *)
Definition get_clickable_x_path : string :=
  join "|" ["//a"; "//button"; "//input[@type='submit']";
            "//input[@type='button']"].

Definition get_clickable (super_get_clickable : string → M (list string))
  : M (list string) :=
  super_get_clickable get_clickable_x_path.

Definition clickable_paths : list LocationPath :=
  [[mkStep AxisDescendant "a" None];
   [mkStep AxisDescendant "button" None];
   [mkStep AxisDescendant "input" (Some ("type", "submit"))];
   [mkStep AxisDescendant "input" (Some ("type", "button"))]].

(** A subtree that hangs in no document: its root is an element. *)
Definition detached_div : Node :=
  element "DIV" [] true true
    [element "SPAN" [] true true []; element "SPAN" [] true true []].

(** A loop aborts: with [e] among the elements it ends in an exception. *)
Definition aborts {T} (loop : list WebElement → T → M T) (w : World)
  (before : list WebElement) (e : WebElement) (after : list WebElement) : Prop :=
  ∀ tags, ∃ ex, fst (loop (before ++ e :: after) tags w) = Raise ex.

(** ** Definitions for the further properties *)

(** Whether a string has no quote in it. *)
Fixpoint no_quote (s : string) : bool :=
  match s with
  | EmptyString => true
  | String c s' => negb (Ascii.eqb c "'") && no_quote s'
  end.

(** The location paths of the expression of [get_inputs] for a type. *)
Definition typed_inputs_paths (t : string) : list LocationPath :=
  [[mkStep AxisDescendant "input" (Some ("type", t))];
   [mkStep AxisChild "input" (Some ("type", t))]].

(** The expression of [get_inputs] for the type [t]. *)
Definition typed_x_path (t : string) : string :=
  "//input[@type='" +:+ t +:+ "']|input[@type='" +:+ t +:+ "']".

(** The location paths of [//input|input]. *)
Definition all_inputs_paths : list LocationPath :=
  [[mkStep AxisDescendant "input" None]; [mkStep AxisChild "input" None]].

(** Whether the character [c] does not occur in [s]. *)
Fixpoint lacks (c : ascii) (s : string) : bool :=
  match s with
  | EmptyString => true
  | String c' s' => negb (Ascii.eqb c' c) && lacks c s'
  end.

(** An element whose name has no ["("]. *)
Definition plain_element_at (doc : Node) (el : WebElement) : bool :=
  match resolve doc el with
  | Some n => is_element n && lacks "(" (nodeName n)
  | None => false
  end.

(** The name and the number a level shows. *)
Definition level_key (doc : Node) (el : WebElement) : string * nat :=
  match resolve doc el with
  | Some n => (tagname n, ordinal doc el)
  | None => ("", 0)
  end.

(** A level, from its name and number. *)
Definition format_level (k : string * nat) : string :=
  fst k +:+ ":nth-of-type(" +:+ js_string_of_nat (snd k) +:+ ")".

(** What follows the first part of a joined list. *)
Definition join_rest (sep : string) (parts : list string) : string :=
  match parts with
  | [] => ""
  | _ :: _ => sep +:+ join sep parts
  end.

(** Every element of the page has only elements with plain names between
    it and the root, and the root is not an element: the page is a
    document. *)
Definition well_formed (doc : Node) : bool :=
  negb (is_element doc) &&
  forallb (λ el, negb (element_at doc el) ||
                 forallb (plain_element_at doc) (path_to_root el))
    (descendants_or_self doc []).

(** The positions of the subtrees of the children [cs], the first of which
    is the [i]-th child of [el]. *)
Fixpoint children_from (cs : list Node) (i : nat) (el : WebElement)
  : list WebElement :=
  match cs with
  | [] => []
  | c :: cs' => descendants_or_self c (i :: el) ++ children_from cs' (S i) el
  end.

(** A page with three checkboxes and two text inputs. *)
Definition checkboxes_page : Node :=
  document
    [element "HTML" [] true true
       [element "BODY" [] true true
          [input_ "text"; input_ "checkbox"; input_ "checkbox";
           input_ "text"; input_ "checkbox"]]].

(** ** Facts on strings *)

Lemma append_empty_inv (a b : string) : a +:+ b = "" → a = "" ∧ b = "".
Proof. destruct a; simpl; [auto | discriminate]. Qed.

Lemma string_app_assoc (a b c : string) : (a +:+ b) +:+ c = a +:+ b +:+ c.
Proof.
  induction a as [|x a IH]; [reflexivity |].
  change (String x ((a +:+ b) +:+ c) = String x (a +:+ b +:+ c)).
  by rewrite IH.
Qed.

Lemma join_cons2 (sep a b : string) (l : list string) :
  join sep (a :: b :: l) = a +:+ sep +:+ join sep (b :: l).
Proof. reflexivity. Qed.

Lemma join_snoc (sep : string) (l : list string) (x : string) :
  join sep (l ++ [x]) =
  match l with
  | [] => x
  | _ :: _ => join sep l +:+ sep +:+ x
  end.
Proof.
  induction l as [|a l IH]; [reflexivity |].
  destruct l as [|b l]; [reflexivity |].
  change ((a :: b :: l) ++ [x]) with (a :: b :: (l ++ [x])).
  rewrite !join_cons2. change (b :: l ++ [x]) with ((b :: l) ++ [x]).
  rewrite IH. by rewrite !string_app_assoc.
Qed.

Lemma join_snoc_nonempty (sep : string) (l : list string) (x : string) :
  x ≠ "" → join sep (l ++ [x]) ≠ "".
Proof.
  intros Hx. rewrite join_snoc. destruct l as [|a l]; [done |].
  intros H. apply append_empty_inv in H as [_ H].
  apply append_empty_inv in H as [_ H]. done.
Qed.

Lemma join_snoc_suffix (sep : string) (l : list string) (x : string) :
  ∃ prefix, join sep (l ++ [x]) = prefix +:+ x.
Proof.
  rewrite join_snoc. destruct l as [|a l].
  - by exists "".
  - exists (join sep (a :: l) +:+ sep). by rewrite string_app_assoc.
Qed.

Lemma py_not_nonempty (s : string) : s ≠ "" → py_not (Some s) = false.
Proof. by destruct s. Qed.

(** ** Facts on the DOM *)

Lemma resolve_parent (doc : Node) (i : nat) (parent : WebElement) (n : Node) :
  resolve doc (i :: parent) = Some n →
  ∃ p, resolve doc parent = Some p ∧ childNodes p !! i = Some n.
Proof. simpl. destruct (resolve doc parent) as [p|]; [eauto | done]. Qed.

Lemma element_at_resolve (doc : Node) (el : WebElement) :
  element_at doc el = true →
  ∃ n, resolve doc el = Some n ∧ is_element n = true.
Proof. unfold element_at. destruct (resolve doc el); [eauto | done]. Qed.

Lemma nth_loop_count (selector : string) (sibs : list Node) (nth : nat) :
  nth_loop selector sibs nth =
  nth + length (List.filter (shares_tag_name selector) sibs).
Proof.
  revert nth. induction sibs as [|sib sibs IH]; intros nth; simpl; [lia |].
  unfold shares_tag_name at 1, tagname.
  destruct (is_element sib); simpl; [| apply IH].
  destruct (String.eqb _ _); simpl; rewrite IH; lia.
Qed.

Lemma filter_reverse_length {A} (f : A → bool) (l : list A) :
  length (List.filter f (reverse l)) = length (List.filter f l).
Proof.
  induction l as [|a l IH]; [reflexivity |].
  rewrite reverse_cons, List.filter_app, length_app, IH. simpl.
  destruct (f a); simpl; lia.
Qed.

(** The counter of the inner loop is the ordinal. *)
Lemma nth_loop_ordinal (doc : Node) (el : WebElement) (n : Node) :
  resolve doc el = Some n →
  nth_loop (toLowerCase (nodeName n)) (previousSiblings doc el) 1 = ordinal doc el.
Proof.
  intros Hn. rewrite nth_loop_count. unfold ordinal, previousSiblings.
  destruct el as [|i parent]; [reflexivity |]. rewrite Hn.
  destruct (resolve doc parent) as [p|]; [| reflexivity].
  by rewrite filter_reverse_length.
Qed.

Lemma level_nonempty (doc : Node) (el : WebElement) (n : Node) :
  resolve doc el = Some n → level doc el ≠ "".
Proof.
  intros Hn. unfold level. rewrite Hn. intros H.
  apply append_empty_inv in H as [_ H]. discriminate H.
Qed.

(** ** The tree walk *)

Lemma getPathTo_loop_eq (doc : Node) (el : WebElement) (path : list string) :
  getPathTo_loop doc el path =
  match resolve doc el with
  | None => Raise StaleElementReferenceException
  | Some n =>
      if is_element n then
        match el with
        | [] => Raise JavascriptException
        | _ :: parent =>
            getPathTo_loop doc parent
              ((toLowerCase (nodeName n) +:+ ":nth-of-type(" +:+
                js_string_of_nat
                  (nth_loop (toLowerCase (nodeName n)) (previousSiblings doc el) 1) +:+
                ")") :: path)
        end
      else Ok path
  end.
Proof. destruct el; reflexivity. Qed.

(** On a page whose root is not an element (a document), the walk from any
    node of the page ends, and collects [levels_from]. *)
Lemma getPathTo_loop_levels (doc : Node) (el : WebElement) (path : list string) :
  is_element doc = false →
  is_Some (resolve doc el) →
  getPathTo_loop doc el path = Ok (levels_from doc el ++ path).
Proof.
  intros Hdoc. revert path.
  induction el as [|i parent IH]; intros path [n Hn].
  - rewrite getPathTo_loop_eq, Hn. simpl in Hn. injection Hn as <-.
    by rewrite Hdoc.
  - rewrite getPathTo_loop_eq, Hn.
    cbn [levels_from]. unfold element_at. rewrite Hn.
    destruct (is_element n) eqn:He; [| reflexivity].
    destruct (resolve_parent _ _ _ _ Hn) as (p & Hp & _).
    rewrite IH by eauto.
    rewrite (nth_loop_ordinal doc (i :: parent) n Hn).
    unfold level. rewrite Hn. unfold tagname.
    by rewrite <- app_assoc.
Qed.

Lemma levels_from_element (doc : Node) (el : WebElement) :
  el ≠ [] → element_at doc el = true →
  ∃ before, levels_from doc el = before ++ [level doc el].
Proof.
  intros Hne He. destruct el as [|i parent]; [done |].
  cbn [levels_from]. rewrite He. eauto.
Qed.

Lemma tag_of_nonempty (doc : Node) (el : WebElement) :
  el ≠ [] → element_at doc el = true → tag_of doc el ≠ "".
Proof.
  intros Hne He. destruct (levels_from_element doc el Hne He) as [before Hl].
  unfold tag_of. rewrite Hl. apply join_snoc_nonempty.
  destruct (element_at_resolve _ _ He) as (n & Hn & _).
  by eapply level_nonempty.
Qed.

(** What the script returns for an element of a document. *)
Lemma getPathTo_element (doc : Node) (el : WebElement) :
  is_element doc = false →
  element_at doc el = true →
  getPathTo doc (ArgElement el) = Ok (Some (tag_of doc el)).
Proof.
  intros Hdoc He. destruct (element_at_resolve _ _ He) as (n & Hn & Hel).
  unfold getPathTo. rewrite Hn, Hel. simpl.
  rewrite getPathTo_loop_levels by eauto.
  by rewrite app_nil_r.
Qed.

Lemma tag_from_element_eq (a : ScriptArg) (w : World) :
  tag_from_element a w = (getPathTo (page w) a, w).
Proof. reflexivity. Qed.

Lemma tag_from_element_element (w : World) (el : WebElement) :
  is_element (page w) = false →
  element_at (page w) el = true →
  tag_from_element (ArgElement el) w = (Ok (Some (tag_of (page w) el)), w).
Proof.
  intros Hdoc He. by rewrite tag_from_element_eq, getPathTo_element.
Qed.

Lemma element_at_not_root (doc : Node) (el : WebElement) :
  is_element doc = false → element_at doc el = true → el ≠ [].
Proof.
  intros Hdoc He ->. unfold element_at in He. simpl in He. congruence.
Qed.

(** When every node between the element and the root is an element, the
    walk goes all the way up. *)
Lemma levels_from_path_to_root (doc : Node) (el : WebElement) :
  forallb (element_at doc) (path_to_root el) = true →
  levels_from doc el = map (level doc) (reverse (path_to_root el)).
Proof.
  induction el as [|i parent IH]; [reflexivity |].
  cbn [path_to_root forallb levels_from]. intros [He Hrest]%andb_prop.
  rewrite He, IH by done. by rewrite reverse_cons, map_app.
Qed.

(** ** [tag_from_element]: the claims *)

(** C2: for an element of a document, [tag_from_element] returns the levels
    from the root down to the element, each [tagname:nth-of-type(N)] with
    [N] the 1-based ordinal of the node among the siblings before it that
    share its tag name, joined with [" > "]; the path of the [k]-th
    [<div>] among its siblings ends in [div:nth-of-type(k)]. *)
Theorem tag_from_element_css_path (w : World) (el : WebElement) :
  is_element (page w) = false →
  element_at (page w) el = true →
  forallb (element_at (page w)) (path_to_root el) = true →
  tag_from_element (ArgElement el) w = (Ok (Some (css_path (page w) el)), w) ∧
  ∀ k, kth_div (page w) el k →
    ∃ prefix,
      tag_from_element (ArgElement el) w =
      (Ok (Some (prefix +:+ "div:nth-of-type(" +:+ js_string_of_nat k +:+ ")")), w).
Proof.
  intros Hdoc He Hchain.
  assert (Htag : tag_from_element (ArgElement el) w =
                 (Ok (Some (css_path (page w) el)), w)).
  { rewrite tag_from_element_element by done.
    unfold tag_of, css_path. by rewrite levels_from_path_to_root. }
  split; [exact Htag |].
  intros k (i & parent & p & n & -> & Hp & Hn & Hdiv & ->).
  rewrite Htag. unfold css_path. cbn [path_to_root]. rewrite reverse_cons, map_app.
  cbn [map]. destruct (join_snoc_suffix " > "
    (map (level (page w)) (reverse (path_to_root parent)))
    (level (page w) (i :: parent))) as [prefix Hj].
  exists prefix. rewrite Hj. do 3 f_equal.
  unfold level, ordinal. cbn [resolve]. rewrite Hp, Hn.
  unfold is_div in Hdiv. apply andb_prop in Hdiv as [_ Hname].
  apply String.eqb_eq in Hname. rewrite Hname.
  replace (shares_tag_name "div") with is_div by reflexivity.
  by rewrite Nat.add_1_r.
Qed.

Lemma tag_from_element_css_path_witness :
  tag_from_element (ArgElement [4; 1; 0]) (start divs_page) =
  (Ok (Some (css_path divs_page [4; 1; 0])), start divs_page) ∧
  ∃ prefix,
    tag_from_element (ArgElement [4; 1; 0]) (start divs_page) =
    (Ok (Some (prefix +:+ "div:nth-of-type(" +:+ js_string_of_nat 3 +:+ ")")),
     start divs_page).
Proof.
  destruct (tag_from_element_css_path (start divs_page) [4; 1; 0])
    as [H1 H2]; [reflexivity | reflexivity | reflexivity |].
  split; [exact H1 |].
  apply (H2 3).
  exists 4, [1; 0]. eexists. eexists.
  repeat split; reflexivity.
Defined.

(** C1, as amended: each level of the returned path shows the node's tag
    name converted to lower case, whatever its case in the DOM. *)
Theorem tag_from_element_lower_case (w : World) (el : WebElement) :
  is_element (page w) = false →
  element_at (page w) el = true →
  forallb (element_at (page w)) (path_to_root el) = true →
  ∃ levels,
    tag_from_element (ArgElement el) w = (Ok (Some (join " > " levels)), w) ∧
    Forall2
      (λ lvl a, ∃ n N,
         resolve (page w) a = Some n ∧
         lvl = toLowerCase (nodeName n) +:+ ":nth-of-type(" +:+
               js_string_of_nat N +:+ ")")
      levels (reverse (path_to_root el)).
Proof.
  intros Hdoc He Hchain.
  exists (map (level (page w)) (reverse (path_to_root el))). split.
  - rewrite tag_from_element_element by done.
    unfold tag_of. by rewrite levels_from_path_to_root.
  - apply Forall2_fmap_l, Forall_Forall2_diag, Forall_forall.
    intros a Ha. rewrite elem_of_reverse in Ha.
    rewrite forallb_forall in Hchain.
    apply list_elem_of_In, Hchain, element_at_resolve in Ha as (n & Hn & _).
    exists n, (ordinal (page w) a). split; [done |].
    unfold level. by rewrite Hn.
Qed.

Lemma tag_from_element_lower_case_witness :
  ∃ levels,
    tag_from_element (ArgElement [0; 1; 0]) (start two_forms_page) =
    (Ok (Some (join " > " levels)), start two_forms_page) ∧
    Forall2
      (λ lvl a, ∃ n N,
         resolve two_forms_page a = Some n ∧
         lvl = toLowerCase (nodeName n) +:+ ":nth-of-type(" +:+
               js_string_of_nat N +:+ ")")
      levels (reverse (path_to_root [0; 1; 0])).
Proof.
  apply (tag_from_element_lower_case (start two_forms_page) [0; 1; 0]);
    reflexivity.
Defined.

(** C1, as the specification states it, fails: the first form of
    [two_forms_page] is reported by the DOM as [FORM] under [BODY] under
    [HTML], and its path is in lower case. *)
Lemma tag_from_element_case_not_preserved :
  element_at two_forms_page [0; 1; 0] = true ∧
  css_path_as_found two_forms_page [0; 1; 0] =
    "HTML:nth-of-type(1) > BODY:nth-of-type(1) > FORM:nth-of-type(1)" ∧
  fst (tag_from_element (ArgElement [0; 1; 0]) (start two_forms_page)) =
    Ok (Some "html:nth-of-type(1) > body:nth-of-type(1) > form:nth-of-type(1)") ∧
  fst (tag_from_element (ArgElement [0; 1; 0]) (start two_forms_page)) ≠
    Ok (Some (css_path_as_found two_forms_page [0; 1; 0])).
Proof. repeat split. vm_compute. discriminate. Qed.

(** C3: for an argument that is not an element node, [tag_from_element]
    returns the absent value ([None]); it raises nothing and leaves the
    world as it was. *)
Theorem tag_from_element_not_element (w : World) (a : ScriptArg) :
  not_an_element_node (page w) a →
  tag_from_element a w = (Ok None, w).
Proof.
  intros Ha. rewrite tag_from_element_eq. f_equal.
  destruct a as [el| | | |]; try reflexivity.
  destruct Ha as (n & Hn & Hty). unfold getPathTo. rewrite Hn.
  unfold is_element. by rewrite bool_decide_eq_false_2.
Qed.

Lemma tag_from_element_not_element_witness :
  tag_from_element (ArgElement [1; 1; 0]) (start two_forms_page) =
  (Ok None, start two_forms_page).
Proof.
  apply (tag_from_element_not_element (start two_forms_page) (ArgElement [1; 1; 0])).
  exists text_node. split; [reflexivity | discriminate].
Defined.

(** ** The monad *)

Lemma bind_Ok {A B} (m : M A) (k : A → M B) (w w' : World) (a : A) :
  m w = (Ok a, w') → (m ≫= k) w = k a w'.
Proof. intros H. unfold mbind, M_bind, bind. by rewrite H. Qed.

Lemma bind_Raise {A B} (m : M A) (k : A → M B) (w w' : World) (e : Exception) :
  m w = (Raise e, w') → (m ≫= k) w = (Raise e, w').
Proof. intros H. unfold mbind, M_bind, bind. by rewrite H. Qed.

Lemma mret_eq {A} (a : A) (w : World) : (mret a : M A) w = (Ok a, w).
Proof. reflexivity. Qed.

(** C9: for an element of a document, two calls of [tag_from_element] in
    succession return the same string both times, a path that is not
    empty, and leave the world as it was; and as long as the page is the
    same (whatever was logged in between), a further call returns that
    string again. *)
Theorem tag_from_element_twice (w : World) (el : WebElement) :
  is_element (page w) = false →
  element_at (page w) el = true →
  ∃ s,
    s ≠ "" ∧
    (first ← tag_from_element (ArgElement el);
     second ← tag_from_element (ArgElement el);
     mret (first, second)) w = (Ok (Some s, Some s), w) ∧
    ∀ w', page w' = page w →
          tag_from_element (ArgElement el) w' = (Ok (Some s), w').
Proof.
  intros Hdoc He. exists (tag_of (page w) el).
  pose proof (tag_from_element_element w el Hdoc He) as Ht.
  split; [apply tag_of_nonempty; eauto using element_at_not_root |].
  split.
  - rewrite (bind_Ok _ _ _ _ _ Ht). by rewrite (bind_Ok _ _ _ _ _ Ht).
  - intros w' Hp. rewrite <- Hp. apply tag_from_element_element; by rewrite Hp.
Qed.

Lemma tag_from_element_twice_witness :
  (first ← tag_from_element (ArgElement [2; 1; 0]);
   second ← tag_from_element (ArgElement [2; 1; 0]);
   mret (first, second)) (start two_forms_page) =
  (Ok (Some "html:nth-of-type(1) > body:nth-of-type(1) > form:nth-of-type(2)",
       Some "html:nth-of-type(1) > body:nth-of-type(1) > form:nth-of-type(2)"),
   start two_forms_page).
Proof.
  destruct (tag_from_element_twice (start two_forms_page) [2; 1; 0])
    as (s & _ & Htwice & Hagain); [reflexivity | reflexivity |].
  specialize (Hagain (start two_forms_page) eq_refl).
  vm_compute in Hagain. injection Hagain as <-. exact Htwice.
Defined.

(** ** The query helper *)

Lemma elements_by_path_eq (x_path : string) (w : World) :
  elements_by_path x_path w =
  match parse_xpath x_path with
  | Some paths => (Ok (selected (page w) paths), w)
  | None => (Raise InvalidSelectorException, w)
  end.
Proof.
  unfold elements_by_path. erewrite bind_Ok by reflexivity.
  by destruct (parse_xpath x_path).
Qed.

Lemma node_test_element (doc : Node) (st : Step) (el : WebElement) :
  node_test doc st el = true → element_at doc el = true.
Proof.
  unfold node_test, element_at. destruct (resolve doc el); [| done].
  by intros [[? _]%andb_prop _]%andb_prop.
Qed.

(** A location path with at least one step selects elements only. *)
Lemma xpath_selects_element (doc : Node) (paths : list LocationPath) (el : WebElement) :
  Forall (λ p, p ≠ []) paths →
  xpath_selects doc paths el = true → element_at doc el = true.
Proof.
  intros Hne. unfold xpath_selects. rewrite existsb_exists.
  intros (p & Hp & Hsel). rewrite Forall_forall in Hne.
  apply list_elem_of_In, Hne in Hp.
  destruct (reverse p) as [|st before] eqn:Hr.
  - apply (f_equal reverse) in Hr. rewrite reverse_involutive in Hr. done.
  - cbn [selects] in Hsel. apply andb_prop in Hsel as [Hsel _].
    by eapply node_test_element.
Qed.

Lemma selected_elements (doc : Node) (paths : list LocationPath) :
  Forall (λ p, p ≠ []) paths →
  Forall (λ el, element_at doc el = true) (selected doc paths).
Proof.
  intros Hne. apply Forall_forall. intros el Hel.
  apply list_elem_of_In, filter_In in Hel as [_ Hel].
  by eapply xpath_selects_element.
Qed.

(** ** The loops on elements of a document *)

Lemma not_displayed_or_not_enabled_eq (w : World) (elem : WebElement) :
  is_Some (resolve (page w) elem) →
  not_displayed_or_not_enabled elem w =
  (Ok (negb (displayed_and_enabled (page w) elem)), w).
Proof.
  intros [n Hn]. unfold not_displayed_or_not_enabled, displayed_and_enabled.
  assert (Hd : is_displayed elem w = (Ok (displayed n), w)).
  { unfold is_displayed. erewrite bind_Ok by reflexivity. by rewrite Hn. }
  assert (He : is_enabled elem w = (Ok (enabled n), w)).
  { unfold is_enabled. erewrite bind_Ok by reflexivity. by rewrite Hn. }
  rewrite (bind_Ok _ _ _ _ _ Hd), Hn.
  destruct (displayed n); simpl; [| reflexivity].
  by rewrite (bind_Ok _ _ _ _ _ He).
Qed.

Lemma get_inputs_loop_elements (w : World) (elems : list WebElement) (tags : list string) :
  is_element (page w) = false →
  Forall (λ el, element_at (page w) el = true) elems →
  get_inputs_loop elems tags w = (Ok (tags ++ map (tag_of (page w)) elems), w).
Proof.
  intros Hdoc Hall. revert tags.
  induction Hall as [|input elems He Hall IH]; intros tags.
  - simpl. by rewrite app_nil_r.
  - cbn [get_inputs_loop].
    rewrite (bind_Ok _ _ _ _ _ (tag_from_element_element w input Hdoc He)).
    rewrite py_not_nonempty
      by (apply tag_of_nonempty; eauto using element_at_not_root).
    rewrite IH. cbn [py_str default map]. by rewrite <- app_assoc.
Qed.

Lemma get_buttons_loop_elements (w : World) (btns : list WebElement) (tags : list string) :
  is_element (page w) = false →
  Forall (λ el, element_at (page w) el = true) btns →
  get_buttons_loop btns tags w =
  (Ok (tags ++ map (tag_of (page w))
                 (List.filter (displayed_and_enabled (page w)) btns)), w).
Proof.
  intros Hdoc Hall. revert tags.
  induction Hall as [|elem btns He Hall IH]; intros tags.
  - simpl. by rewrite app_nil_r.
  - cbn [get_buttons_loop List.filter].
    rewrite (bind_Ok _ _ _ _ _ (not_displayed_or_not_enabled_eq w elem
      ltac:(destruct (element_at_resolve _ _ He) as (? & ? & _); eauto))).
    destruct (displayed_and_enabled (page w) elem); cbn [negb]; [| apply IH].
    rewrite (bind_Ok _ _ _ _ _ (tag_from_element_element w elem Hdoc He)).
    rewrite py_not_nonempty
      by (apply tag_of_nonempty; eauto using element_at_not_root).
    rewrite IH. cbn [py_str default map]. by rewrite <- app_assoc.
Qed.

Lemma parse_forms : parse_xpath "//form" = Some forms_paths.
Proof. reflexivity. Qed.

Lemma parse_buttons : parse_xpath get_buttons_x_path = Some buttons_paths.
Proof. reflexivity. Qed.

Ltac input_kind := unfold input_kinds; rewrite !elem_of_cons; auto 10.

Lemma parse_inputs (form : WebElement) (kind : string) :
  kind ∈ input_kinds →
  parse_xpath (get_inputs_x_path (Some form) (Some kind)) = Some (input_paths kind).
Proof.
  unfold input_kinds. rewrite !elem_of_cons, elem_of_nil.
  intros [-> | [-> | [-> | [-> | []]]]]; reflexivity.
Qed.

Lemma input_paths_steps (kind : string) : Forall (λ p, p ≠ []) (input_paths kind).
Proof. unfold input_paths. destruct (String.eqb kind "select"); by repeat constructor. Qed.

(** Scoped to a form or not, [get_inputs] of one of the four kinds returns
    the tags of what the expression selects on the whole page. *)
Lemma get_inputs_kind (w : World) (form : WebElement) (kind : string) :
  is_element (page w) = false →
  kind ∈ input_kinds →
  get_inputs (Some form) (Some kind) w =
  (Ok (map (tag_of (page w)) (selected (page w) (input_paths kind))), w).
Proof.
  intros Hdoc Hk. unfold get_inputs.
  erewrite bind_Ok
    by (rewrite elements_by_path_eq, (parse_inputs form kind Hk); reflexivity).
  rewrite get_inputs_loop_elements; [done | done |].
  apply selected_elements, input_paths_steps.
Qed.

Lemma foldl_insert_lookup {A V} (f : A → string) (v : V) (l : list A)
  (m : gmap string V) (k : string) :
  foldl (λ m e, <[f e := v]> m) m l !! k =
  if decide (k ∈ map f l) then Some v else m !! k.
Proof.
  revert m. induction l as [|a l IH]; intros m; cbn [foldl map].
  - by rewrite decide_False by apply not_elem_of_nil.
  - rewrite IH. destruct (decide (k ∈ map f l)) as [Hin | Hnin].
    + by rewrite decide_True by (rewrite elem_of_cons; auto).
    + destruct (decide (k = f a)) as [-> | Hne].
      * rewrite lookup_insert_eq.
        by rewrite decide_True by (rewrite elem_of_cons; auto).
      * rewrite lookup_insert_ne by done.
        by rewrite decide_False by (rewrite elem_of_cons; intros [|]; done).
Qed.

Lemma get_forms_loop_elements (w : World) (forms : list WebElement)
  (tags : gmap string (list (list string))) :
  is_element (page w) = false →
  Forall (λ el, element_at (page w) el = true) forms →
  get_forms_loop forms tags w =
  (Ok (foldl (λ m e, <[tag_of (page w) e := form_inputs (page w)]> m) tags
         (List.filter (displayed_and_enabled (page w)) forms)), w).
Proof.
  intros Hdoc Hall. revert tags.
  induction Hall as [|elem forms He Hall IH]; intros tags; [reflexivity |].
  cbn [get_forms_loop List.filter].
  rewrite (bind_Ok _ _ _ _ _ (not_displayed_or_not_enabled_eq w elem
    ltac:(destruct (element_at_resolve _ _ He) as (? & ? & _); eauto))).
  destruct (displayed_and_enabled (page w) elem); cbn [negb]; [| apply IH].
  rewrite (bind_Ok _ _ _ _ _ (tag_from_element_element w elem Hdoc He)).
  rewrite py_not_nonempty
    by (apply tag_of_nonempty; eauto using element_at_not_root).
  rewrite (bind_Ok _ _ _ _ _ (get_inputs_kind w elem "text" Hdoc ltac:(input_kind))).
  rewrite (bind_Ok _ _ _ _ _ (get_inputs_kind w elem "select" Hdoc ltac:(input_kind))).
  rewrite (bind_Ok _ _ _ _ _ (get_inputs_kind w elem "checkbox" Hdoc ltac:(input_kind))).
  rewrite (bind_Ok _ _ _ _ _ (get_inputs_kind w elem "date" Hdoc ltac:(input_kind))).
  by rewrite IH.
Qed.

Lemma get_forms_eq (w : World) :
  is_element (page w) = false →
  get_forms w =
  (Ok (foldl (λ m e, <[tag_of (page w) e := form_inputs (page w)]> m) ∅
         (List.filter (displayed_and_enabled (page w))
            (selected (page w) forms_paths))), w).
Proof.
  intros Hdoc. unfold get_forms.
  erewrite bind_Ok by (rewrite elements_by_path_eq, parse_forms; reflexivity).
  apply get_forms_loop_elements; [done |].
  apply selected_elements. by repeat constructor.
Qed.

Lemma get_buttons_eq (w : World) (in_form : bool) :
  is_element (page w) = false →
  get_buttons in_form w =
  (Ok (map (tag_of (page w))
         (List.filter (displayed_and_enabled (page w))
            (selected (page w) buttons_paths))), w).
Proof.
  intros Hdoc. unfold get_buttons.
  erewrite bind_Ok by (rewrite elements_by_path_eq, parse_buttons; reflexivity).
  rewrite get_buttons_loop_elements; [done | done |].
  apply selected_elements. by repeat constructor.
Qed.

(** ** What survives the filter *)

Lemma is_displayed_inv (w : World) (el : WebElement) (b : bool) :
  is_displayed el w = (Ok b, w) →
  ∃ n, resolve (page w) el = Some n ∧ displayed n = b.
Proof.
  unfold is_displayed. erewrite bind_Ok by reflexivity.
  destruct (resolve (page w) el) as [n|]; [| discriminate].
  rewrite mret_eq. intros [= <-]. eauto.
Qed.

Lemma is_enabled_inv (w : World) (el : WebElement) (b : bool) :
  is_enabled el w = (Ok b, w) →
  ∃ n, resolve (page w) el = Some n ∧ enabled n = b.
Proof.
  unfold is_enabled. erewrite bind_Ok by reflexivity.
  destruct (resolve (page w) el) as [n|]; [| discriminate].
  rewrite mret_eq. intros [= <-]. eauto.
Qed.

(** The tags of the elements of a query result that are displayed and
    enabled, said with the calls the loops make. *)
Lemma surviving_tags (w : World) (elems : list WebElement) (t : string) :
  is_element (page w) = false →
  Forall (λ el, element_at (page w) el = true) elems →
  t ∈ map (tag_of (page w)) (List.filter (displayed_and_enabled (page w)) elems) ↔
  ∃ e, e ∈ elems ∧
       not_displayed_or_not_enabled e w = (Ok false, w) ∧
       tag_from_element (ArgElement e) w = (Ok (Some t), w).
Proof.
  intros Hdoc Hall. rewrite Forall_forall in Hall.
  rewrite list_elem_of_In, in_map_iff. split.
  - intros (e & <- & [He Hvis]%filter_In). apply list_elem_of_In in He.
    exists e. split; [done |]. split.
    + destruct (element_at_resolve _ _ (Hall e He)) as (n & Hn & _).
      rewrite not_displayed_or_not_enabled_eq by eauto. by rewrite Hvis.
    + by apply tag_from_element_element, Hall.
  - intros (e & He & Hvis & Htag). exists e.
    destruct (element_at_resolve _ _ (Hall e He)) as (n & Hn & _).
    rewrite not_displayed_or_not_enabled_eq in Hvis by eauto.
    rewrite tag_from_element_element in Htag by auto.
    injection Hvis as Hvis. injection Htag as Htag.
    apply negb_false_iff in Hvis.
    split; [done |]. apply filter_In. by rewrite <- list_elem_of_In.
Qed.

Lemma dom_foldl_insert {A V} (f : A → string) (v : V) (l : list A) (t : string) :
  t ∈ dom (foldl (λ m e, <[f e := v]> m) (∅ : gmap string V) l) ↔ t ∈ map f l.
Proof.
  rewrite elem_of_dom, foldl_insert_lookup.
  destruct (decide (t ∈ map f l)) as [Hin | Hnin].
  - split; [done | eauto].
  - rewrite lookup_empty. split; [by intros [? ?] | done].
Qed.

(** ** The enumerations: the claims *)

Lemma is_displayed_eq (w : World) (el : WebElement) (n : Node) :
  resolve (page w) el = Some n → is_displayed el w = (Ok (displayed n), w).
Proof.
  intros Hn. unfold is_displayed. erewrite bind_Ok by reflexivity. by rewrite Hn.
Qed.

Lemma is_enabled_eq (w : World) (el : WebElement) (n : Node) :
  resolve (page w) el = Some n → is_enabled el w = (Ok (enabled n), w).
Proof.
  intros Hn. unfold is_enabled. erewrite bind_Ok by reflexivity. by rewrite Hn.
Qed.

(** Displayed and enabled, said with the answers of the driver. *)
Lemma displayed_and_enabled_answers (w : World) (el : WebElement) :
  is_Some (resolve (page w) el) →
  displayed_and_enabled (page w) el = true ↔
  is_displayed el w = (Ok true, w) ∧ is_enabled el w = (Ok true, w).
Proof.
  intros [n Hn]. unfold displayed_and_enabled.
  rewrite (is_displayed_eq w el n Hn), (is_enabled_eq w el n Hn), Hn.
  rewrite andb_true_iff. split.
  - by intros [-> ->].
  - by intros [[= ->] [= ->]].
Qed.

(** The tags of the elements of a query result that the driver reports as
    displayed and as enabled. *)
Lemma displayed_enabled_tags (w : World) (elems : list WebElement) (t : string) :
  is_element (page w) = false →
  Forall (λ el, element_at (page w) el = true) elems →
  t ∈ map (tag_of (page w)) (List.filter (displayed_and_enabled (page w)) elems) ↔
  ∃ e, e ∈ elems ∧
       is_displayed e w = (Ok true, w) ∧
       is_enabled e w = (Ok true, w) ∧
       tag_from_element (ArgElement e) w = (Ok (Some t), w).
Proof.
  intros Hdoc Hall. rewrite Forall_forall in Hall.
  rewrite list_elem_of_In, in_map_iff. split.
  - intros (e & <- & [He Hvis]%filter_In). apply list_elem_of_In in He.
    destruct (element_at_resolve _ _ (Hall e He)) as (n & Hn & _).
    apply displayed_and_enabled_answers in Hvis as [Hd Hen]; [| eauto].
    exists e. repeat split; [done | done | done |].
    by apply tag_from_element_element, Hall.
  - intros (e & He & Hd & Hen & Htag). exists e.
    destruct (element_at_resolve _ _ (Hall e He)) as (n & Hn & _).
    rewrite tag_from_element_element in Htag by auto.
    injection Htag as Htag. split; [done |].
    apply filter_In. split; [by apply list_elem_of_In |].
    apply displayed_and_enabled_answers; eauto.
Qed.

(** C5: on a page that is a document, [get_forms] and [get_buttons] return,
    and what they return comes from the queried elements that are displayed
    and enabled, and from no other: the keys of [get_forms] and the tags of
    [get_buttons] are the tags of the queried elements for which the driver
    answers [True] both to [is_displayed] and to [is_enabled]; an element
    that is not displayed, or not enabled, adds nothing.  When the page has
    two forms, one hidden (or disabled) and one visible, the mapping of
    [get_forms] has exactly one key, the tag of the visible form. *)
Theorem skip_not_displayed_or_not_enabled (w : World) (in_form : bool) :
  is_element (page w) = false →
  ∃ forms btns fs bs,
    elements_by_path "//form" w = (Ok forms, w) ∧
    elements_by_path get_buttons_x_path w = (Ok btns, w) ∧
    get_forms w = (Ok fs, w) ∧
    get_buttons in_form w = (Ok bs, w) ∧
    (∀ t, t ∈ dom fs ↔
          ∃ e, e ∈ forms ∧
               is_displayed e w = (Ok true, w) ∧
               is_enabled e w = (Ok true, w) ∧
               tag_from_element (ArgElement e) w = (Ok (Some t), w)) ∧
    (∀ t, t ∈ bs ↔
          ∃ e, e ∈ btns ∧
               is_displayed e w = (Ok true, w) ∧
               is_enabled e w = (Ok true, w) ∧
               tag_from_element (ArgElement e) w = (Ok (Some t), w)) ∧
    (∀ h v, forms = [h; v] ∨ forms = [v; h] →
            is_displayed h w = (Ok false, w) ∨ is_enabled h w = (Ok false, w) →
            is_displayed v w = (Ok true, w) →
            is_enabled v w = (Ok true, w) →
            ∃ t, tag_from_element (ArgElement v) w = (Ok (Some t), w) ∧
                 dom fs = {[ t ]} ∧ size fs = 1).
Proof.
  intros Hdoc.
  assert (Hforms : Forall (λ el, element_at (page w) el = true)
                     (selected (page w) forms_paths))
    by (apply selected_elements; by repeat constructor).
  assert (Hbtns : Forall (λ el, element_at (page w) el = true)
                    (selected (page w) buttons_paths))
    by (apply selected_elements; by repeat constructor).
  eexists _, _, _, _.
  split; [by rewrite elements_by_path_eq, parse_forms |].
  split; [by rewrite elements_by_path_eq, parse_buttons |].
  split; [by apply get_forms_eq |].
  split; [by apply get_buttons_eq |].
  split; [| split].
  - intros t. rewrite dom_foldl_insert. by apply displayed_enabled_tags.
  - intros t. by apply displayed_enabled_tags.
  - intros h v Hhv Hh Hv Hven.
    assert (Hhid : displayed_and_enabled (page w) h = false).
    { unfold displayed_and_enabled.
      destruct Hh as [Hh | Hh].
      - apply is_displayed_inv in Hh as (nh & -> & ->). done.
      - apply is_enabled_inv in Hh as (nh & -> & ->). apply andb_false_r. }
    assert (Hvv : displayed_and_enabled (page w) v = true).
    { apply is_displayed_inv in Hv as (nv & Hnv & Hdv).
      apply displayed_and_enabled_answers; [eauto |].
      split; [by rewrite (is_displayed_eq w v nv Hnv), Hdv | done]. }
    assert (Hvis : List.filter (displayed_and_enabled (page w))
                     (selected (page w) forms_paths) = [v]).
    { destruct Hhv as [-> | ->]; cbn [List.filter]; by rewrite Hhid, Hvv. }
    assert (Hin : v ∈ selected (page w) forms_paths)
      by (destruct Hhv as [Hhv | Hhv]; rewrite Hhv, !elem_of_cons; auto).
    rewrite Forall_forall in Hforms.
    exists (tag_of (page w) v).
    split; [apply tag_from_element_element; [done | by apply Hforms] |].
    rewrite Hvis. cbn [foldl]. split.
    + by rewrite insert_empty, dom_singleton_L.
    + by rewrite insert_empty, map_size_singleton.
Qed.

Lemma skip_not_displayed_or_not_enabled_witness :
  (∃ fs bs,
     get_forms (start hidden_form_page) = (Ok fs, start hidden_form_page) ∧
     get_buttons false (start hidden_form_page) = (Ok bs, start hidden_form_page) ∧
     dom fs = {[ "html:nth-of-type(1) > body:nth-of-type(1) > form:nth-of-type(2)" ]} ∧
     size fs = 1) ∧
  (∃ fs bs,
     get_forms (start disabled_form_page) = (Ok fs, start disabled_form_page) ∧
     get_buttons false (start disabled_form_page) =
       (Ok bs, start disabled_form_page) ∧
     dom fs = {[ "html:nth-of-type(1) > body:nth-of-type(1) > form:nth-of-type(2)" ]} ∧
     size fs = 1 ∧
     bs = ["html:nth-of-type(1) > body:nth-of-type(1) > form:nth-of-type(2) > button:nth-of-type(1)"]).
Proof.
  split.
  - destruct (skip_not_displayed_or_not_enabled (start hidden_form_page) false)
      as (forms & btns & fs & bs & Hforms & _ & Hfs & Hbs & _ & _ & Hone);
      [reflexivity |].
    exists fs, bs. split; [exact Hfs |]. split; [exact Hbs |].
    destruct (Hone [0; 0; 0] [1; 0; 0]) as (t & Ht & Hdom & Hsize);
      [left | left; reflexivity | reflexivity | reflexivity |].
    + vm_compute in Hforms. by injection Hforms as <-.
    + vm_compute in Ht. injection Ht as <-. by split.
  - destruct (skip_not_displayed_or_not_enabled (start disabled_form_page) false)
      as (forms & btns & fs & bs & Hforms & _ & Hfs & Hbs & _ & _ & Hone);
      [reflexivity |].
    exists fs, bs. split; [exact Hfs |]. split; [exact Hbs |].
    destruct (Hone [0; 0; 0] [1; 0; 0]) as (t & Ht & Hdom & Hsize);
      [left | right; reflexivity | reflexivity | reflexivity |].
    + vm_compute in Hforms. by injection Hforms as <-.
    + vm_compute in Ht. injection Ht as <-.
      split; [done |]. split; [done |].
      vm_compute in Hbs. by injection Hbs as <-.
Defined.

(** C6: on a page that is a document, [get_forms] returns a mapping that
    has, for every queried form that passes the displayed-and-enabled
    filter, the form's tag as a key; under it are four sequences, what
    [get_inputs] called with that form returns for the kinds [text],
    [select], [checkbox] and [date], in this order. *)
Theorem get_forms_descriptor (w : World) :
  is_element (page w) = false →
  ∃ forms fs,
    elements_by_path "//form" w = (Ok forms, w) ∧
    get_forms w = (Ok fs, w) ∧
    ∀ elem,
      elem ∈ forms →
      not_displayed_or_not_enabled elem w = (Ok false, w) →
      ∃ tag text select checkbox date,
        tag_from_element (ArgElement elem) w = (Ok (Some tag), w) ∧
        get_inputs (Some elem) (Some "text") w = (Ok text, w) ∧
        get_inputs (Some elem) (Some "select") w = (Ok select, w) ∧
        get_inputs (Some elem) (Some "checkbox") w = (Ok checkbox, w) ∧
        get_inputs (Some elem) (Some "date") w = (Ok date, w) ∧
        fs !! tag = Some [text; select; checkbox; date].
Proof.
  intros Hdoc.
  assert (Hforms : Forall (λ el, element_at (page w) el = true)
                     (selected (page w) forms_paths))
    by (apply selected_elements; by repeat constructor).
  eexists _, _.
  split; [by rewrite elements_by_path_eq, parse_forms |].
  split; [by apply get_forms_eq |].
  intros elem Hin Hvis.
  assert (Htag : tag_of (page w) elem ∈
                 map (tag_of (page w))
                   (List.filter (displayed_and_enabled (page w))
                      (selected (page w) forms_paths))).
  { apply surviving_tags; [done | done |]. exists elem.
    split; [done |]. split; [done |].
    rewrite Forall_forall in Hforms. apply tag_from_element_element; auto. }
  rewrite Forall_forall in Hforms.
  eexists _, _, _, _, _.
  split; [apply tag_from_element_element; auto |].
  split; [apply get_inputs_kind; [done | input_kind] |].
  split; [apply get_inputs_kind; [done | input_kind] |].
  split; [apply get_inputs_kind; [done | input_kind] |].
  split; [apply get_inputs_kind; [done | input_kind] |].
  rewrite foldl_insert_lookup. by rewrite decide_True.
Qed.

Lemma get_forms_descriptor_witness :
  ∃ fs,
    get_forms (start two_forms_page) = (Ok fs, start two_forms_page) ∧
    ∃ text select checkbox date,
      get_inputs (Some [2; 1; 0]) (Some "text") (start two_forms_page) =
        (Ok text, start two_forms_page) ∧
      get_inputs (Some [2; 1; 0]) (Some "select") (start two_forms_page) =
        (Ok select, start two_forms_page) ∧
      get_inputs (Some [2; 1; 0]) (Some "checkbox") (start two_forms_page) =
        (Ok checkbox, start two_forms_page) ∧
      get_inputs (Some [2; 1; 0]) (Some "date") (start two_forms_page) =
        (Ok date, start two_forms_page) ∧
      fs !! "html:nth-of-type(1) > body:nth-of-type(1) > form:nth-of-type(2)" =
        Some [text; select; checkbox; date].
Proof.
  destruct (get_forms_descriptor (start two_forms_page))
    as (forms & fs & Hforms & Hfs & Hall); [reflexivity |].
  exists fs. split; [exact Hfs |].
  destruct (Hall [2; 1; 0])
    as (tag & text & select & checkbox & date & Ht & H1 & H2 & H3 & H4 & Hl).
  - vm_compute in Hforms. injection Hforms as <-. set_solver.
  - reflexivity.
  - vm_compute in Ht. injection Ht as <-.
    exists text, select, checkbox, date. auto.
Defined.

(** ** The expression of [get_buttons] *)

Lemma existsb_root (el : WebElement) :
  existsb (λ a, bool_decide (a = [])) (ancestors_or_self el) = true.
Proof.
  induction el as [|i parent IH]; [reflexivity |].
  cbn [ancestors_or_self existsb]. rewrite IH. apply orb_true_r.
Qed.

Lemma node_test_root (doc : Node) (st : Step) :
  is_element doc = false → node_test doc st [] = false.
Proof. intros Hdoc. unfold node_test. simpl. by rewrite Hdoc. Qed.

(** [//name], alone or as the first step, selects by the node test. *)
Lemma selects_descendant_first (doc : Node) (st : Step) (el : WebElement) :
  is_element doc = false →
  axis st = AxisDescendant →
  selects doc [st] el = node_test doc st el.
Proof.
  intros Hdoc Hax. cbn [selects]. rewrite Hax.
  destruct el as [|i parent].
  - by rewrite node_test_root.
  - change (selects doc []) with (λ a : WebElement, bool_decide (a = [])).
    rewrite existsb_root. apply andb_true_r.
Qed.

Lemma node_test_named (doc : Node) (ax : Axis) (name : string) (el : WebElement) :
  node_test doc (mkStep ax name None) el = named doc name el.
Proof.
  unfold node_test, named. destruct (resolve doc el); [| done].
  cbn. apply andb_true_r.
Qed.

Lemma node_test_input (doc : Node) (ax : Axis) (type : string) (el : WebElement) :
  node_test doc (mkStep ax "input" (Some ("type", type))) el =
  input_of_type doc type el.
Proof.
  unfold node_test, input_of_type. destruct (resolve doc el) as [n|]; [| done].
  cbn. f_equal. destruct (getAttribute "type" (attributes n)) as [v|].
  - destruct (String.eqb_spec v type) as [-> | Hne].
    + by rewrite bool_decide_eq_true_2.
    + rewrite bool_decide_eq_false_2; [done | congruence].
  - by rewrite bool_decide_eq_false_2.
Qed.

Lemma existsb_eq {A} (f g : A → bool) (l : list A) :
  (∀ a, f a = g a) → existsb f l = existsb g l.
Proof. intros Hfg. induction l as [|a l IH]; simpl; [done | by rewrite Hfg, IH]. Qed.

(** [//outer//a] selects the anchors inside an [outer]. *)
Lemma selects_anchor_inside (doc : Node) (outer : string) (el : WebElement) :
  is_element doc = false →
  selects doc [mkStep AxisDescendant "a" None; mkStep AxisDescendant outer None] el =
  named doc "a" el && inside doc outer el.
Proof.
  intros Hdoc. cbn [selects axis]. rewrite node_test_named.
  destruct el as [|i parent].
  - unfold named. simpl. by rewrite Hdoc.
  - f_equal. unfold inside. cbn [ancestors_or_self tail].
    apply existsb_eq. intros a.
    rewrite <- node_test_named with (ax := AxisDescendant).
    by apply (selects_descendant_first doc (mkStep AxisDescendant outer None)).
Qed.

Lemma xpath_selects_buttons (doc : Node) (el : WebElement) :
  is_element doc = false →
  xpath_selects doc buttons_paths el = button_like doc el.
Proof.
  intros Hdoc. unfold xpath_selects, buttons_paths, button_like.
  cbn [existsb]. rewrite orb_false_r, !orb_assoc.
  change (reverse [mkStep AxisDescendant "form" None; mkStep AxisDescendant "a" None])
    with [mkStep AxisDescendant "a" None; mkStep AxisDescendant "form" None].
  change (reverse [mkStep AxisDescendant "table" None; mkStep AxisDescendant "a" None])
    with [mkStep AxisDescendant "a" None; mkStep AxisDescendant "table" None].
  change (reverse [mkStep AxisDescendant "button" None])
    with [mkStep AxisDescendant "button" None].
  change (reverse [mkStep AxisDescendant "input" (Some ("type", "button"))])
    with [mkStep AxisDescendant "input" (Some ("type", "button"))].
  change (reverse [mkStep AxisDescendant "input" (Some ("type", "submit"))])
    with [mkStep AxisDescendant "input" (Some ("type", "submit"))].
  rewrite !selects_anchor_inside by done.
  rewrite !selects_descendant_first by done.
  by rewrite node_test_named, !node_test_input.
Qed.

(** C8: on a page that is a document, [get_buttons] queries the elements
    that are anchors inside forms, buttons, button inputs, submit inputs or
    anchors inside tables, in document order, and returns the tags of those
    of them that are displayed and enabled, in that order. *)
Theorem get_buttons_document_order (w : World) (in_form : bool) :
  is_element (page w) = false →
  ∃ btns,
    elements_by_path get_buttons_x_path w = (Ok btns, w) ∧
    btns = List.filter (button_like (page w)) (descendants_or_self (page w) []) ∧
    (∀ e, e ∈ btns →
          not_displayed_or_not_enabled e w =
            (Ok (negb (displayed_and_enabled (page w) e)), w) ∧
          tag_from_element (ArgElement e) w = (Ok (Some (tag_of (page w) e)), w)) ∧
    get_buttons in_form w =
      (Ok (map (tag_of (page w))
             (List.filter (displayed_and_enabled (page w)) btns)), w).
Proof.
  intros Hdoc.
  assert (Hbtns : Forall (λ el, element_at (page w) el = true)
                    (selected (page w) buttons_paths))
    by (apply selected_elements; by repeat constructor).
  exists (selected (page w) buttons_paths).
  split; [by rewrite elements_by_path_eq, parse_buttons |].
  split; [apply List.filter_ext; intros el; by apply xpath_selects_buttons |].
  split; [| by apply get_buttons_eq].
  intros e He. rewrite Forall_forall in Hbtns. specialize (Hbtns e He).
  split; [| by apply tag_from_element_element].
  apply not_displayed_or_not_enabled_eq.
  destruct (element_at_resolve _ _ Hbtns) as (n & Hn & _). eauto.
Qed.

Lemma get_buttons_document_order_witness :
  get_buttons false (start hidden_form_page) =
  (Ok ["html:nth-of-type(1) > body:nth-of-type(1) > form:nth-of-type(2) > button:nth-of-type(1)";
       "html:nth-of-type(1) > body:nth-of-type(1) > form:nth-of-type(2) > a:nth-of-type(1)"],
   start hidden_form_page).
Proof.
  destruct (get_buttons_document_order (start hidden_form_page) false)
    as (btns & _ & -> & _ & Hb); [reflexivity |].
  exact Hb.
Defined.

(** C10: [get_buttons] does not read [in_form]: with [True] and with
    [False] it does the same, on every world. *)
Theorem get_buttons_in_form_unused (w : World) :
  get_buttons true w = get_buttons false w.
Proof. reflexivity. Qed.

(** ** Computations that read the page only *)

Create HintDb frames.

Lemma frames_mret {A} (a : A) : frames (mret a : M A).
Proof. intros p. exists (Ok a), []. intros lg. by rewrite app_nil_r. Qed.

Lemma frames_raise {A} (e : Exception) : frames (raise e : M A).
Proof. intros p. exists (Raise e), []. intros lg. unfold raise. by rewrite app_nil_r. Qed.

Lemma frames_bind {A B} (m : M A) (k : A → M B) :
  frames m → (∀ a, frames (k a)) → frames (m ≫= k).
Proof.
  intros Hm Hk p. destruct (Hm p) as (r & extra & Hr).
  destruct r as [a | e].
  - destruct (Hk a p) as (r' & extra' & Hr').
    exists r', (extra ++ extra'). intros lg.
    rewrite (bind_Ok _ _ _ _ _ (Hr lg)), Hr'. by rewrite app_assoc.
  - exists (Raise e), extra. intros lg.
    by rewrite (bind_Raise _ _ _ _ _ (Hr lg)).
Qed.

Lemma frames_if {A} (b : bool) (m1 m2 : M A) :
  frames m1 → frames m2 → frames (if b then m1 else m2).
Proof. by destruct b. Qed.

Lemma frames_logger_warn (m : string) (el : WebElement) : frames (logger_warn m el).
Proof. intros p. by exists (Ok tt), [mkLog WARNING m el]. Qed.

Lemma frames_tag_from_element (a : ScriptArg) : frames (tag_from_element a).
Proof.
  intros p. exists (getPathTo p a), []. intros lg.
  rewrite tag_from_element_eq. by rewrite app_nil_r.
Qed.

Lemma frames_is_displayed (el : WebElement) : frames (is_displayed el).
Proof.
  intros p. unfold is_displayed.
  destruct (resolve p el) as [n|] eqn:Hn.
  - exists (Ok (displayed n)), []. intros lg.
    erewrite bind_Ok by reflexivity. cbn [page]. by rewrite Hn, app_nil_r.
  - exists (Raise StaleElementReferenceException), []. intros lg.
    erewrite bind_Ok by reflexivity. cbn [page]. by rewrite Hn, app_nil_r.
Qed.

Lemma frames_is_enabled (el : WebElement) : frames (is_enabled el).
Proof.
  intros p. unfold is_enabled.
  destruct (resolve p el) as [n|] eqn:Hn.
  - exists (Ok (enabled n)), []. intros lg.
    erewrite bind_Ok by reflexivity. cbn [page]. by rewrite Hn, app_nil_r.
  - exists (Raise StaleElementReferenceException), []. intros lg.
    erewrite bind_Ok by reflexivity. cbn [page]. by rewrite Hn, app_nil_r.
Qed.

Lemma frames_elements_by_path (x_path : string) : frames (elements_by_path x_path).
Proof.
  intros p. destruct (parse_xpath x_path) as [paths|] eqn:Hp.
  - exists (Ok (selected p paths)), []. intros lg.
    rewrite elements_by_path_eq, Hp. by rewrite app_nil_r.
  - exists (Raise InvalidSelectorException), []. intros lg.
    rewrite elements_by_path_eq, Hp. by rewrite app_nil_r.
Qed.

#[local] Hint Resolve frames_mret frames_raise frames_logger_warn
  frames_tag_from_element frames_is_displayed frames_is_enabled
  frames_elements_by_path : frames.

Ltac frames_step :=
  cbv beta;
  first [ solve [auto with frames]
        | apply frames_bind; [| intros ?]
        | apply frames_if ].

Lemma frames_not_displayed_or_not_enabled (el : WebElement) :
  frames (not_displayed_or_not_enabled el).
Proof. unfold not_displayed_or_not_enabled. repeat frames_step. Qed.

Lemma frames_get_inputs_loop (elems : list WebElement) (tags : list string) :
  frames (get_inputs_loop elems tags).
Proof.
  revert tags. induction elems as [|input elems IH]; intros tags;
    cbn [get_inputs_loop]; repeat frames_step; apply IH.
Qed.

Lemma frames_get_inputs (form : option WebElement) (itype : option string) :
  frames (get_inputs form itype).
Proof.
  unfold get_inputs. repeat frames_step. apply frames_get_inputs_loop.
Qed.

#[local] Hint Resolve frames_not_displayed_or_not_enabled frames_get_inputs : frames.

Lemma frames_get_forms_loop (forms : list WebElement)
  (tags : gmap string (list (list string))) :
  frames (get_forms_loop forms tags).
Proof.
  revert tags. induction forms as [|elem forms IH]; intros tags;
    cbn [get_forms_loop]; repeat frames_step; apply IH.
Qed.

Lemma frames_get_buttons_loop (btns : list WebElement) (tags : list string) :
  frames (get_buttons_loop btns tags).
Proof.
  revert tags. induction btns as [|elem btns IH]; intros tags;
    cbn [get_buttons_loop]; repeat frames_step; apply IH.
Qed.

(** What a computation that reads the page only does to a world. *)
Lemma frames_run {A} (m : M A) (w : World) :
  frames m →
  ∃ extra,
    snd (m w) = mkWorld (page w) (log w ++ extra) ∧
    ∀ lg, m (mkWorld (page w) lg) = (fst (m w), mkWorld (page w) (lg ++ extra)).
Proof.
  intros Hm. destruct w as [p lg0]. destruct (Hm p) as (r & extra & Hr).
  exists extra. cbn [page log]. rewrite (Hr lg0). cbn [fst snd].
  split; [done |]. intros lg. apply Hr.
Qed.

Lemma frames_fst {A} (m : M A) (w1 w2 : World) :
  frames m → page w1 = page w2 → fst (m w1) = fst (m w2).
Proof.
  intros Hm Hp. destruct w1 as [p lg1], w2 as [p' lg2]. cbn in Hp. subst p'.
  destruct (Hm p) as (r & extra & Hr). by rewrite !Hr.
Qed.

Lemma frames_page {A} (m : M A) (w : World) :
  frames m → page (snd (m w)) = page w.
Proof.
  intros Hm. destruct (frames_run m w Hm) as (extra & -> & _). done.
Qed.

Lemma frames_log {A} (m : M A) (w : World) (r : LogRecord) :
  frames m → r ∈ log w → r ∈ log (snd (m w)).
Proof.
  intros Hm Hr. destruct (frames_run m w Hm) as (extra & -> & _).
  cbn [log]. rewrite elem_of_app. by left.
Qed.

(** ** An element without a tag *)

Lemma logger_warn_eq (m : string) (el : WebElement) (w : World) :
  logger_warn m el w = (Ok tt, mkWorld (page w) (log w ++ [mkLog WARNING m el])).
Proof. reflexivity. Qed.

Lemma no_tag_inv (w : World) (e : WebElement) :
  no_tag w e →
  ∃ tag, getPathTo (page w) (ArgElement e) = Ok tag ∧ py_not tag = true ∧
         is_Some (resolve (page w) e).
Proof.
  intros (tag & Ht & Hnot). rewrite tag_from_element_eq in Ht.
  injection Ht as Ht. exists tag. split; [done |]. split; [done |].
  unfold getPathTo in Ht. destruct (resolve (page w) e); [eauto | done].
Qed.

(** One round of a loop on an element without a tag: the warning, and on
    to the next element. *)
Lemma get_inputs_loop_no_tag (e : WebElement) (after : list WebElement)
  (tags : list string) (w : World) (tag : option string) :
  getPathTo (page w) (ArgElement e) = Ok tag → py_not tag = true →
  get_inputs_loop (e :: after) tags w =
  get_inputs_loop after tags
    (mkWorld (page w) (log w ++ [mkLog WARNING "No tag for input %s" e])).
Proof.
  intros Ht Hnot. cbn [get_inputs_loop].
  erewrite bind_Ok by (rewrite tag_from_element_eq, Ht; reflexivity).
  rewrite Hnot. by erewrite bind_Ok by apply logger_warn_eq.
Qed.

Lemma get_buttons_loop_no_tag (e : WebElement) (after : list WebElement)
  (tags : list string) (w : World) (tag : option string) :
  getPathTo (page w) (ArgElement e) = Ok tag → py_not tag = true →
  is_Some (resolve (page w) e) →
  get_buttons_loop (e :: after) tags w =
  get_buttons_loop after tags
    (if displayed_and_enabled (page w) e
     then mkWorld (page w) (log w ++ [mkLog WARNING "No tag for element %s" e])
     else w).
Proof.
  intros Ht Hnot Hres. cbn [get_buttons_loop].
  rewrite (bind_Ok _ _ _ _ _ (not_displayed_or_not_enabled_eq w e Hres)).
  destruct (displayed_and_enabled (page w) e); cbn [negb]; [| done].
  erewrite bind_Ok by (rewrite tag_from_element_eq, Ht; reflexivity).
  rewrite Hnot. by erewrite bind_Ok by apply logger_warn_eq.
Qed.

Lemma get_forms_loop_no_tag (e : WebElement) (after : list WebElement)
  (tags : gmap string (list (list string))) (w : World) (tag : option string) :
  getPathTo (page w) (ArgElement e) = Ok tag → py_not tag = true →
  is_Some (resolve (page w) e) →
  get_forms_loop (e :: after) tags w =
  get_forms_loop after tags
    (if displayed_and_enabled (page w) e
     then mkWorld (page w) (log w ++ [mkLog WARNING "No tag for element %s" e])
     else w).
Proof.
  intros Ht Hnot Hres. cbn [get_forms_loop].
  rewrite (bind_Ok _ _ _ _ _ (not_displayed_or_not_enabled_eq w e Hres)).
  destruct (displayed_and_enabled (page w) e); cbn [negb]; [| done].
  erewrite bind_Ok by (rewrite tag_from_element_eq, Ht; reflexivity).
  rewrite Hnot. by erewrite bind_Ok by apply logger_warn_eq.
Qed.

(** Running one computation that reads the page only, in front of two
    continuations that agree on every world with the same page. *)
Lemma bind_frames_fst {A B} (m : M A) (k1 k2 : A → M B) (w : World) :
  frames m →
  (∀ a w', page w' = page w → fst (k1 a w') = fst (k2 a w')) →
  fst ((m ≫= k1) w) = fst ((m ≫= k2) w).
Proof.
  intros Hm Hk. pose proof (frames_page m w Hm) as Hp.
  destruct (m w) as [[a | ex] w1] eqn:Hmw; cbn [snd] in Hp.
  - rewrite !(bind_Ok _ _ _ _ _ Hmw). by apply Hk.
  - by rewrite !(bind_Raise _ _ _ _ _ Hmw).
Qed.

Lemma bind_frames_log {A B} (m : M A) (k : A → M B) (w : World)
  (P : World → Prop) :
  frames m →
  (∀ a w' r w'', page w' = page w → k a w' = (Ok r, w'') → P w'') →
  ∀ r w'', (m ≫= k) w = (Ok r, w'') → P w''.
Proof.
  intros Hm Hk r w''. pose proof (frames_page m w Hm) as Hp.
  destruct (m w) as [[a | ex] w1] eqn:Hmw; cbn [snd] in Hp.
  - rewrite (bind_Ok _ _ _ _ _ Hmw). by apply Hk.
  - by rewrite (bind_Raise _ _ _ _ _ Hmw).
Qed.

Ltac skips_step IH :=
  cbv beta;
  first [ apply IH; congruence
        | apply bind_frames_fst; [solve [auto with frames] | intros ? ? ?]
        | match goal with
          | |- context [if ?b then _ else _] => destruct b
          end ].

Ltac warns_step IH r :=
  cbv beta;
  first [ eapply IH; congruence
        | apply (bind_frames_log _ _ _ (λ w, r ∈ log w));
          [solve [auto with frames] | intros ? ? ? ? ?]
        | match goal with
          | |- context [if ?b then _ else _] => destruct b
          end ].

Section NoTag.
Variables (p : Node) (e : WebElement) (tag : option string).
Variable (after : list WebElement).
Hypothesis Htag : getPathTo p (ArgElement e) = Ok tag.
Hypothesis Hnot : py_not tag = true.

Lemma resolve_no_tag : is_Some (resolve p e).
Proof.
  unfold getPathTo in Htag. destruct (resolve p e); [eauto | done].
Qed.

Lemma get_inputs_loop_skips (before : list WebElement) :
  ∀ tags w, page w = p →
    fst (get_inputs_loop (before ++ e :: after) tags w) =
    fst (get_inputs_loop (before ++ after) tags w).
Proof.
  induction before as [|a before IH]; intros tags w Hp.
  - cbn [app].
    erewrite get_inputs_loop_no_tag by (rewrite ?Hp; first [exact Htag | exact Hnot]).
    by apply frames_fst; [apply frames_get_inputs_loop |].
  - cbn [app get_inputs_loop]. repeat skips_step IH.
Qed.

Lemma get_inputs_loop_warns (before : list WebElement) :
  ∀ tags w, page w = p →
    ∀ r w', get_inputs_loop (before ++ e :: after) tags w = (Ok r, w') →
            mkLog WARNING "No tag for input %s" e ∈ log w'.
Proof.
  induction before as [|a before IH]; intros tags w Hp.
  - cbn [app].
    erewrite get_inputs_loop_no_tag by (rewrite ?Hp; first [exact Htag | exact Hnot]).
    intros r w' Hrun. change w' with (snd (Ok r, w')). rewrite <- Hrun.
    apply frames_log; [apply frames_get_inputs_loop |].
    cbn [log]. rewrite elem_of_app, list_elem_of_singleton. by right.
  - cbn [app get_inputs_loop].
    repeat warns_step IH (mkLog WARNING "No tag for input %s" e).
Qed.

Lemma get_forms_loop_skips (before : list WebElement) :
  ∀ tags w, page w = p →
    fst (get_forms_loop (before ++ e :: after) tags w) =
    fst (get_forms_loop (before ++ after) tags w).
Proof.
  induction before as [|a before IH]; intros tags w Hp.
  - cbn [app].
    erewrite get_forms_loop_no_tag
      by (rewrite ?Hp; first [exact Htag | exact Hnot | apply resolve_no_tag]).
    rewrite Hp.
    apply frames_fst; [apply frames_get_forms_loop |].
    by destruct (displayed_and_enabled p e).
  - cbn [app get_forms_loop]. repeat skips_step IH.
Qed.

Lemma get_forms_loop_warns (before : list WebElement) :
  displayed_and_enabled p e = true →
  ∀ tags w, page w = p →
    ∀ r w', get_forms_loop (before ++ e :: after) tags w = (Ok r, w') →
            mkLog WARNING "No tag for element %s" e ∈ log w'.
Proof.
  intros Hvis.
  induction before as [|a before IH]; intros tags w Hp.
  - cbn [app].
    erewrite get_forms_loop_no_tag
      by (rewrite ?Hp; first [exact Htag | exact Hnot | apply resolve_no_tag]).
    rewrite Hp, Hvis.
    intros r w' Hrun. change w' with (snd (Ok r, w')). rewrite <- Hrun.
    apply frames_log; [apply frames_get_forms_loop |].
    cbn [log]. rewrite elem_of_app, list_elem_of_singleton. by right.
  - cbn [app get_forms_loop].
    repeat warns_step IH (mkLog WARNING "No tag for element %s" e).
Qed.

Lemma get_buttons_loop_skips (before : list WebElement) :
  ∀ tags w, page w = p →
    fst (get_buttons_loop (before ++ e :: after) tags w) =
    fst (get_buttons_loop (before ++ after) tags w).
Proof.
  induction before as [|a before IH]; intros tags w Hp.
  - cbn [app].
    erewrite get_buttons_loop_no_tag
      by (rewrite ?Hp; first [exact Htag | exact Hnot | apply resolve_no_tag]).
    rewrite Hp.
    apply frames_fst; [apply frames_get_buttons_loop |].
    by destruct (displayed_and_enabled p e).
  - cbn [app get_buttons_loop]. repeat skips_step IH.
Qed.

Lemma get_buttons_loop_warns (before : list WebElement) :
  displayed_and_enabled p e = true →
  ∀ tags w, page w = p →
    ∀ r w', get_buttons_loop (before ++ e :: after) tags w = (Ok r, w') →
            mkLog WARNING "No tag for element %s" e ∈ log w'.
Proof.
  intros Hvis.
  induction before as [|a before IH]; intros tags w Hp.
  - cbn [app].
    erewrite get_buttons_loop_no_tag
      by (rewrite ?Hp; first [exact Htag | exact Hnot | apply resolve_no_tag]).
    rewrite Hp, Hvis.
    intros r w' Hrun. change w' with (snd (Ok r, w')). rewrite <- Hrun.
    apply frames_log; [apply frames_get_buttons_loop |].
    cbn [log]. rewrite elem_of_app, list_elem_of_singleton. by right.
  - cbn [app get_buttons_loop].
    repeat warns_step IH (mkLog WARNING "No tag for element %s" e).
Qed.
End NoTag.

(** C7: in the loops of [get_inputs], [get_forms] and [get_buttons], an
    element for which the tag computation yields an absent value is
    skipped: the loop ends as it does without that element, so the element
    adds nothing to the returned collection, it aborts nothing, and the
    elements after it are processed.  The loop of [get_inputs] logs the
    warning for it; the loops of [get_forms] and [get_buttons], which
    compute the tags of displayed and enabled elements only, log it when
    the element is displayed and enabled. *)
Theorem no_tag_skipped_with_warning (w : World)
  (before : list WebElement) (e : WebElement) (after : list WebElement) :
  no_tag w e →
  skips get_inputs_loop w before e after ∧
  warns get_inputs_loop "No tag for input %s" w before e after ∧
  skips get_forms_loop w before e after ∧
  skips get_buttons_loop w before e after ∧
  (not_displayed_or_not_enabled e w = (Ok false, w) →
   warns get_forms_loop "No tag for element %s" w before e after ∧
   warns get_buttons_loop "No tag for element %s" w before e after).
Proof.
  intros Hno. destruct (no_tag_inv w e Hno) as (tag & Htag & Hnot & Hres).
  split; [intros tags; by eapply get_inputs_loop_skips |].
  split; [intros tags; by eapply get_inputs_loop_warns |].
  split; [intros tags; by eapply get_forms_loop_skips |].
  split; [intros tags; by eapply get_buttons_loop_skips |].
  intros Hvis. rewrite not_displayed_or_not_enabled_eq in Hvis by done.
  injection Hvis as Hvis. apply negb_false_iff in Hvis.
  split; intros tags.
  - by eapply get_forms_loop_warns.
  - by eapply get_buttons_loop_warns.
Qed.

Lemma no_tag_skipped_with_warning_witness :
  let w := start shown_text_page in
  let elems := [[0; 0; 0]; [1; 0; 0]; [2; 0; 0]] in
  fst (get_inputs_loop elems [] w) =
    Ok ["html:nth-of-type(1) > body:nth-of-type(1) > form:nth-of-type(1)";
        "html:nth-of-type(1) > body:nth-of-type(1) > button:nth-of-type(1)"] ∧
  fst (get_buttons_loop elems [] w) =
    Ok ["html:nth-of-type(1) > body:nth-of-type(1) > form:nth-of-type(1)";
        "html:nth-of-type(1) > body:nth-of-type(1) > button:nth-of-type(1)"] ∧
  mkLog WARNING "No tag for input %s" [1; 0; 0] ∈ log (snd (get_inputs_loop elems [] w)) ∧
  mkLog WARNING "No tag for element %s" [1; 0; 0] ∈ log (snd (get_forms_loop elems ∅ w)) ∧
  mkLog WARNING "No tag for element %s" [1; 0; 0] ∈ log (snd (get_buttons_loop elems [] w)).
Proof.
  intros w elems.
  destruct (no_tag_skipped_with_warning w [[0; 0; 0]] [1; 0; 0] [[2; 0; 0]])
    as (Hi & Hiw & _ & Hb & Hw).
  { exists None. split; reflexivity. }
  destruct Hw as [Hfw Hbw]; [reflexivity |].
  subst elems.
  change [[0; 0; 0]; [1; 0; 0]; [2; 0; 0]]
    with ([[0; 0; 0]] ++ [1; 0; 0] :: [[2; 0; 0]]).
  split; [etransitivity; [apply (Hi []) | reflexivity] |].
  split; [etransitivity; [apply (Hb []) | reflexivity] |].
  split; [| split].
  - destruct (get_inputs_loop _ [] w) as [[r | ex] w'] eqn:Hrun.
    + exact (Hiw [] r w' Hrun).
    + vm_compute in Hrun. discriminate Hrun.
  - destruct (get_forms_loop _ ∅ w) as [[r | ex] w'] eqn:Hrun.
    + exact (Hfw ∅ r w' Hrun).
    + vm_compute in Hrun. discriminate Hrun.
  - destruct (get_buttons_loop _ [] w) as [[r | ex] w'] eqn:Hrun.
    + exact (Hbw [] r w' Hrun).
    + vm_compute in Hrun. discriminate Hrun.
Defined.

(** C4, where the code departs from it: [get_inputs] uses of the form only
    whether one is given.  Whatever the form, it returns the same; asked
    for the text inputs of the first form of [two_forms_page] it returns
    the text inputs of both forms, the second of which is not inside the
    form it was given. *)
Theorem get_inputs_ignores_form :
  (∀ form1 form2 itype w,
     get_inputs (Some form1) itype w = get_inputs (Some form2) itype w) ∧
  let w := start two_forms_page in
  named (page w) "form" [0; 1; 0] = true ∧
  fst (get_inputs (Some [0; 1; 0]) (Some "text") w) =
    Ok [tag_of (page w) [0; 0; 1; 0]; tag_of (page w) [0; 2; 1; 0]] ∧
  tag_of (page w) [0; 2; 1; 0] =
    "html:nth-of-type(1) > body:nth-of-type(1) > form:nth-of-type(2) > input:nth-of-type(1)" ∧
  [0; 1; 0] ∉ ancestors_or_self [0; 2; 1; 0].
Proof.
  split; [reflexivity |].
  repeat split. unfold ancestors_or_self. rewrite !elem_of_cons, elem_of_nil.
  intros [H | [H | [H | [H | [H | []]]]]]; discriminate H.
Qed.

(** * Further properties of the tagger *)

(** ** The tag of a child and the tag of its parent *)

(** The tag of an element whose parent is an element is the tag of the
    parent, [" > "], and the element's own level: tags of descendants
    begin with the tag of their ancestor. *)
Theorem tag_extends_parent_tag (w : World) (i : nat) (parent : WebElement) :
  is_element (page w) = false →
  element_at (page w) parent = true →
  element_at (page w) (i :: parent) = true →
  ∃ t n N,
    resolve (page w) (i :: parent) = Some n ∧
    tag_from_element (ArgElement parent) w = (Ok (Some t), w) ∧
    tag_from_element (ArgElement (i :: parent)) w =
    (Ok (Some (t +:+ " > " +:+ toLowerCase (nodeName n) +:+ ":nth-of-type(" +:+
               js_string_of_nat N +:+ ")")), w).
Proof.
  intros Hdoc Hp He.
  destruct (element_at_resolve _ _ He) as (n & Hn & _).
  exists (tag_of (page w) parent), n, (ordinal (page w) (i :: parent)).
  split; [done |]. split; [by apply tag_from_element_element |].
  rewrite tag_from_element_element by done. do 3 f_equal.
  unfold tag_of. cbn [levels_from]. rewrite He.
  destruct (levels_from_element (page w) parent
              (element_at_not_root _ _ Hdoc Hp) Hp) as [before Hl].
  rewrite join_snoc, Hl. destruct before; cbn [app];
    unfold level at 2 || unfold level at 3; rewrite Hn; reflexivity.
Qed.

Lemma tag_extends_parent_tag_witness :
  ∃ t,
    tag_from_element (ArgElement [2; 1; 0]) (start two_forms_page) =
      (Ok (Some t), start two_forms_page) ∧
    tag_from_element (ArgElement [3; 2; 1; 0]) (start two_forms_page) =
      (Ok (Some (t +:+ " > input:nth-of-type(3)")), start two_forms_page).
Proof.
  destruct (tag_extends_parent_tag (start two_forms_page) 3 [2; 1; 0])
    as (t & n & N & Hn & Ht & Hc); [reflexivity | reflexivity | reflexivity |].
  exists t. split; [exact Ht |].
  vm_compute in Ht. injection Ht as <-. reflexivity.
Defined.

(** ** An exception in the tag computation *)

Lemma bind_frames_raises {A B} (m : M A) (k : A → M B) (w : World) :
  frames m →
  (∀ a w', page w' = page w → ∃ ex, fst (k a w') = Raise ex) →
  ∃ ex, fst ((m ≫= k) w) = Raise ex.
Proof.
  intros Hm Hk. pose proof (frames_page m w Hm) as Hp.
  destruct (m w) as [[a | ex] w1] eqn:Hmw; cbn [snd] in Hp.
  - rewrite (bind_Ok _ _ _ _ _ Hmw). by apply Hk.
  - rewrite (bind_Raise _ _ _ _ _ Hmw). by exists ex.
Qed.

Ltac aborts_step IH :=
  cbv beta;
  first [ apply IH; congruence
        | apply bind_frames_raises; [solve [auto with frames] | intros ? ? ?]
        | match goal with
          | |- context [if ?b then _ else _] => destruct b
          end ].

Lemma not_displayed_or_not_enabled_page (e : WebElement) (w w' : World) (b : bool) :
  not_displayed_or_not_enabled e w = (Ok b, w) →
  page w' = page w →
  not_displayed_or_not_enabled e w' = (Ok b, w').
Proof.
  intros Hw Hp.
  assert (Hres : is_Some (resolve (page w) e)).
  { destruct (resolve (page w) e) as [n|] eqn:Hn; [eauto |]. exfalso.
    unfold not_displayed_or_not_enabled in Hw.
    erewrite bind_Raise in Hw; [discriminate Hw |].
    unfold is_displayed. erewrite bind_Ok by reflexivity.
    rewrite Hn. reflexivity. }
  rewrite not_displayed_or_not_enabled_eq in Hw by done.
  rewrite not_displayed_or_not_enabled_eq by (by rewrite Hp).
  rewrite Hp. by injection Hw as ->.
Qed.

Lemma get_inputs_loop_aborts (e : WebElement) (after : list WebElement)
  (p : Node) (ex : Exception) (before : list WebElement) :
  getPathTo p (ArgElement e) = Raise ex →
  ∀ tags w, page w = p →
    ∃ ex', fst (get_inputs_loop (before ++ e :: after) tags w) = Raise ex'.
Proof.
  intros Hex. induction before as [|a before IH]; intros tags w Hp.
  - cbn [app get_inputs_loop]. exists ex.
    erewrite bind_Raise; [reflexivity |].
    by rewrite tag_from_element_eq, Hp, Hex.
  - cbn [app get_inputs_loop]. repeat aborts_step IH.
Qed.

Lemma get_forms_loop_aborts (e : WebElement) (after : list WebElement)
  (p : Node) (ex : Exception) (before : list WebElement) :
  getPathTo p (ArgElement e) = Raise ex →
  (∀ w, page w = p → not_displayed_or_not_enabled e w = (Ok false, w)) →
  ∀ tags w, page w = p →
    ∃ ex', fst (get_forms_loop (before ++ e :: after) tags w) = Raise ex'.
Proof.
  intros Hex Hvis. induction before as [|a before IH]; intros tags w Hp.
  - cbn [app get_forms_loop]. exists ex.
    rewrite (bind_Ok _ _ _ _ _ (Hvis w Hp)).
    erewrite bind_Raise; [reflexivity |].
    by rewrite tag_from_element_eq, Hp, Hex.
  - cbn [app get_forms_loop]. repeat aborts_step IH.
Qed.

Lemma get_buttons_loop_aborts (e : WebElement) (after : list WebElement)
  (p : Node) (ex : Exception) (before : list WebElement) :
  getPathTo p (ArgElement e) = Raise ex →
  (∀ w, page w = p → not_displayed_or_not_enabled e w = (Ok false, w)) →
  ∀ tags w, page w = p →
    ∃ ex', fst (get_buttons_loop (before ++ e :: after) tags w) = Raise ex'.
Proof.
  intros Hex Hvis. induction before as [|a before IH]; intros tags w Hp.
  - cbn [app get_buttons_loop]. exists ex.
    rewrite (bind_Ok _ _ _ _ _ (Hvis w Hp)).
    erewrite bind_Raise; [reflexivity |].
    by rewrite tag_from_element_eq, Hp, Hex.
  - cbn [app get_buttons_loop]. repeat aborts_step IH.
Qed.

(** Nothing catches an exception of the tag computation: when
    [tag_from_element] raises for an element, a loop of [get_inputs] over
    elements with that one among them ends in an exception and returns no
    collection, whatever comes before and after; so do the loops of
    [get_forms] and [get_buttons] when the element is displayed and
    enabled. *)
Theorem tag_exception_aborts (w : World)
  (before : list WebElement) (e : WebElement) (after : list WebElement)
  (ex : Exception) :
  tag_from_element (ArgElement e) w = (Raise ex, w) →
  aborts get_inputs_loop w before e after ∧
  (not_displayed_or_not_enabled e w = (Ok false, w) →
   aborts get_forms_loop w before e after ∧
   aborts get_buttons_loop w before e after).
Proof.
  intros Hex. rewrite tag_from_element_eq in Hex. injection Hex as Hex.
  split; [intros tags; by eapply get_inputs_loop_aborts |].
  intros Hvis. split; intros tags.
  - eapply get_forms_loop_aborts; [done | | done].
    intros w' Hp. by eapply not_displayed_or_not_enabled_page.
  - eapply get_buttons_loop_aborts; [done | | done].
    intros w' Hp. by eapply not_displayed_or_not_enabled_page.
Qed.

Lemma tag_exception_aborts_witness :
  (∃ ex, fst (get_inputs_loop [[0]; [1]] [] (start detached_div)) = Raise ex) ∧
  (∃ ex, fst (get_forms_loop [[0]; [1]] ∅ (start detached_div)) = Raise ex) ∧
  (∃ ex, fst (get_buttons_loop [[0]; [1]] [] (start detached_div)) = Raise ex).
Proof.
  destruct (tag_exception_aborts (start detached_div) [[0]] [1] []
              JavascriptException) as [Hi Hfb]; [reflexivity |].
  destruct Hfb as [Hf Hb]; [reflexivity |].
  split; [exact (Hi []) |]. split; [exact (Hf ∅) | exact (Hb [])].
Defined.

(** ** What [get_forms] stores under every form *)

Lemma parse_inputs_page (kind : string) :
  kind ∈ input_kinds →
  parse_xpath (get_inputs_x_path None (Some kind)) = Some (input_paths kind).
Proof.
  unfold input_kinds. rewrite !elem_of_cons, elem_of_nil.
  intros [-> | [-> | [-> | [-> | []]]]]; reflexivity.
Qed.

Lemma get_inputs_page_kind (w : World) (kind : string) :
  is_element (page w) = false →
  kind ∈ input_kinds →
  get_inputs None (Some kind) w =
  (Ok (map (tag_of (page w)) (selected (page w) (input_paths kind))), w).
Proof.
  intros Hdoc Hk. unfold get_inputs.
  erewrite bind_Ok
    by (rewrite elements_by_path_eq, (parse_inputs_page kind Hk); reflexivity).
  rewrite get_inputs_loop_elements; [done | done |].
  apply selected_elements, input_paths_steps.
Qed.

(** Every form of the mapping of [get_forms] has the same four sequences
    under its tag, and they are those of the whole page: what [get_inputs]
    returns, without a form, for [text], [select], [checkbox] and [date]. *)
Theorem get_forms_same_inputs (w : World) :
  is_element (page w) = false →
  ∃ fs text select checkbox date,
    get_forms w = (Ok fs, w) ∧
    get_inputs None (Some "text") w = (Ok text, w) ∧
    get_inputs None (Some "select") w = (Ok select, w) ∧
    get_inputs None (Some "checkbox") w = (Ok checkbox, w) ∧
    get_inputs None (Some "date") w = (Ok date, w) ∧
    ∀ tag inputs, fs !! tag = Some inputs →
                  inputs = [text; select; checkbox; date].
Proof.
  intros Hdoc. eexists _, _, _, _, _.
  split; [by apply get_forms_eq |].
  split; [apply get_inputs_page_kind; [done | input_kind] |].
  split; [apply get_inputs_page_kind; [done | input_kind] |].
  split; [apply get_inputs_page_kind; [done | input_kind] |].
  split; [apply get_inputs_page_kind; [done | input_kind] |].
  intros tag inputs. rewrite foldl_insert_lookup.
  destruct (decide _); [| by rewrite lookup_empty].
  by intros [= <-].
Qed.

Lemma get_forms_same_inputs_witness :
  ∃ fs text select checkbox date,
    get_forms (start two_forms_page) = (Ok fs, start two_forms_page) ∧
    get_inputs None (Some "text") (start two_forms_page) =
      (Ok text, start two_forms_page) ∧
    get_inputs None (Some "select") (start two_forms_page) =
      (Ok select, start two_forms_page) ∧
    get_inputs None (Some "checkbox") (start two_forms_page) =
      (Ok checkbox, start two_forms_page) ∧
    get_inputs None (Some "date") (start two_forms_page) =
      (Ok date, start two_forms_page) ∧
    ∀ tag inputs, fs !! tag = Some inputs →
                  inputs = [text; select; checkbox; date].
Proof.
  apply (get_forms_same_inputs (start two_forms_page)). reflexivity.
Defined.

(** ** Buttons and clickable elements *)

Lemma parse_clickable : parse_xpath get_clickable_x_path = Some clickable_paths.
Proof. reflexivity. Qed.

Lemma selects_anchor (doc : Node) (before : list Step) (el : WebElement) :
  selects doc (mkStep AxisDescendant "a" None :: before) el = true →
  selects doc [mkStep AxisDescendant "a" None] el = true.
Proof.
  cbn [selects axis]. intros [Ht Hrest]%andb_prop. rewrite Ht.
  destruct el as [|i parent]; [done |].
  change (selects doc []) with (λ a : WebElement, bool_decide (a = [])).
  by rewrite existsb_root.
Qed.

Lemma buttons_clickable (doc : Node) (el : WebElement) :
  xpath_selects doc buttons_paths el = true →
  xpath_selects doc clickable_paths el = true.
Proof.
  unfold xpath_selects, buttons_paths, clickable_paths. cbn [existsb].
  rewrite !orb_false_r, !orb_true_iff.
  intros [H | [H | [H | [H | H]]]].
  - left. by eapply selects_anchor.
  - right. by left.
  - right. right. by right.
  - right. right. by left.
  - left. by eapply selects_anchor.
Qed.

(** Every element that the expression of [get_buttons] selects is selected
    by the expression of [get_clickable]: the buttons of a page are among
    its clickable candidates. *)
Theorem buttons_among_clickable (w : World) :
  ∃ btns clickable,
    elements_by_path get_buttons_x_path w = (Ok btns, w) ∧
    elements_by_path get_clickable_x_path w = (Ok clickable, w) ∧
    ∀ e, e ∈ btns → e ∈ clickable.
Proof.
  eexists _, _.
  split; [by rewrite elements_by_path_eq, parse_buttons |].
  split; [by rewrite elements_by_path_eq, parse_clickable |].
  intros e. unfold selected. rewrite !list_elem_of_In, !filter_In.
  intros [Hin Hsel]. split; [done |]. by apply buttons_clickable.
Qed.

(** ** The two filters *)

(** [get_forms] and [get_buttons] skip an element unless it is displayed
    and enabled; [clickable_sanity_check] rejects on its own, with a debug
    record, only an element that is neither, and leaves every other one to
    the check of the base class.  So an element that is hidden but enabled,
    or displayed but disabled, is skipped by the former and still passed
    on by the latter. *)
Theorem clickable_sanity_check_filter (base : WebElement → M bool)
  (w : World) (e : WebElement) (d en : bool) :
  is_displayed e w = (Ok d, w) →
  is_enabled e w = (Ok en, w) →
  not_displayed_or_not_enabled e w = (Ok (negb (d && en)), w) ∧
  clickable_sanity_check base e w =
  if negb d && negb en
  then (Ok false,
        mkWorld (page w) (log w ++ [mkLog DEBUG "Skipping non-displayed: %s" e]))
  else base e w.
Proof.
  intros Hd Hen.
  destruct (is_displayed_inv _ _ _ Hd) as (n & Hn & Hdn).
  destruct (is_enabled_inv _ _ _ Hen) as (n' & Hn' & Hen').
  assert (n' = n) as -> by congruence.
  split.
  - rewrite not_displayed_or_not_enabled_eq by eauto.
    unfold displayed_and_enabled. by rewrite Hn, Hdn, Hen'.
  - unfold clickable_sanity_check.
    rewrite (bind_Ok _ _ _ _ _ Hd).
    destruct d; cbn [negb andb].
    + by erewrite bind_Ok by reflexivity.
    + erewrite bind_Ok by (rewrite (bind_Ok _ _ _ _ _ Hen); reflexivity).
      destruct en; cbn [negb]; [done |].
      by erewrite bind_Ok by reflexivity.
Qed.

Lemma clickable_sanity_check_filter_witness :
  not_displayed_or_not_enabled [0; 0; 0] (start hidden_form_page) =
    (Ok true, start hidden_form_page) ∧
  clickable_sanity_check (λ _, mret true) [0; 0; 0] (start hidden_form_page) =
    (Ok true, start hidden_form_page).
Proof.
  destruct (clickable_sanity_check_filter (λ _, mret true)
              (start hidden_form_page) [0; 0; 0] false true) as [H1 H2];
    [reflexivity | reflexivity |].
  split; [exact H1 | exact H2].
Defined.

(** ** What [get_inputs] selects *)

Lemma append_String (c : ascii) (a b : string) :
  String c a +:+ b = String c (a +:+ b).
Proof. reflexivity. Qed.

Lemma span_no_quote (t r : string) :
  no_quote t = true →
  span (λ c, negb (Ascii.eqb c "'")) (t +:+ String "'" r) = (t, String "'" r).
Proof.
  induction t as [|c t IH]; [reflexivity |].
  cbn [no_quote]. intros [Hc Ht]%andb_prop.
  rewrite append_String. cbn [span]. rewrite Hc, IH by done. reflexivity.
Qed.

Ltac next_char t :=
  destruct t as [|[[] [] [] [] [] [] [] []] t]; try reflexivity.

Lemma x_path_shape (form : option WebElement) (t : string) :
  t ≠ "" → t ≠ "select" →
  get_inputs_x_path form (Some t) =
  match form with Some _ => "." +:+ typed_x_path t | None => typed_x_path t end.
Proof.
  intros Hne Hsel. unfold get_inputs_x_path.
  assert (H : match t with
              | "select" => "//select|select"
              | String _ _ as itype =>
                  "//input[@type='" +:+ itype +:+ "']|input[@type='" +:+ itype +:+ "']"
              | _ => "//input|input"
              end = typed_x_path t).
  { clear form. next_char t; [done |]. next_char t. next_char t. next_char t.
    next_char t. next_char t. next_char t. done. }
  by rewrite H.
Qed.

Lemma parse_attribute_test_type (t r : string) :
  no_quote t = true →
  parse_attribute_test ("[@type='" +:+ t +:+ String "'" (String "]" r)) =
  Some (Some ("type", t), r).
Proof.
  intros Ht.
  change ("[@type='" +:+ t +:+ String "'" (String "]" r))
    with (String "[" (String "@" ("type='" +:+ t +:+ String "'" (String "]" r)))).
  cbn [parse_attribute_test].
  change (span is_name_char ("type='" +:+ t +:+ String "'" (String "]" r)))
    with ("type", String "=" (String "'" (t +:+ String "'" (String "]" r)))).
  cbv beta iota. by rewrite span_no_quote.
Qed.

Lemma parse_typed_step (fuel : nat) (first : bool) (ax : Axis) (pre t r : string) :
  no_quote t = true →
  parse_axis first (pre +:+ "input[@type='" +:+ t +:+ String "'" (String "]" r)) =
    Some (ax, "input[@type='" +:+ t +:+ String "'" (String "]" r)) →
  (r = "" ∨ ∃ r', r = String "|" r') →
  parse_steps (S fuel) first (pre +:+ "input[@type='" +:+ t +:+ String "'" (String "]" r)) =
  Some ([mkStep ax "input" (Some ("type", t))], r).
Proof.
  intros Ht Hax Hr. cbn [parse_steps]. rewrite Hax.
  change (span is_name_char ("input[@type='" +:+ t +:+ String "'" (String "]" r)))
    with ("input", "[@type='" +:+ t +:+ String "'" (String "]" r)).
  cbv beta iota. rewrite parse_attribute_test_type by done.
  destruct Hr as [-> | [r' ->]]; reflexivity.
Qed.

Lemma parse_union_S (fuel : nat) (s : string) :
  parse_union (S fuel) s =
  match parse_path (String.length s) s with
  | Some (p, EmptyString) => Some [p]
  | Some (p, String "|" rest) =>
      match parse_union fuel rest with
      | Some ps => Some (p :: ps)
      | None => None
      end
  | _ => None
  end.
Proof. reflexivity. Qed.

Lemma parse_typed (form : option WebElement) (t : string) :
  no_quote t = true →
  parse_xpath (match form with Some _ => "." +:+ typed_x_path t | None => typed_x_path t end)
  = Some (typed_inputs_paths t).
Proof.
  intros Ht. unfold parse_xpath.
  set (rest := "input[@type='" +:+ t +:+ "']").
  assert (Hrest : parse_path (String.length rest) rest =
                  Some ([mkStep AxisChild "input" (Some ("type", t))], "")).
  { subst rest.
    change ("input[@type='" +:+ t +:+ "']")
      with (String "i" ("nput[@type='" +:+ t +:+ "']")).
    change (String.length (String "i" ("nput[@type='" +:+ t +:+ "']")))
      with (S (String.length ("nput[@type='" +:+ t +:+ "']"))).
    change (parse_path ?f (String "i" ?s)) with (parse_steps f true (String "i" s)).
    apply (parse_typed_step _ true AxisChild "" t ""); [done | reflexivity | by left]. }
  set (body := "input[@type='" +:+ t +:+ String "'" (String "]" (String "|" rest))).
  assert (Hunion : ∀ fuel, parse_union (S fuel) rest =
                           Some [[mkStep AxisChild "input" (Some ("type", t))]]).
  { intros fuel. by rewrite parse_union_S, Hrest. }
  destruct form as [f|].
  - change ("." +:+ typed_x_path t) with (String "." (String "/" (String "/" body))).
    change (String.length (String "." (String "/" (String "/" body))))
      with (S (S (S (String.length body)))).
    rewrite parse_union_S.
    change (String.length (String "." (String "/" (String "/" body))))
      with (S (S (S (String.length body)))).
    change (parse_path ?f (String "." ?s)) with (parse_steps f false s).
    rewrite (parse_typed_step _ false AxisDescendant "//" t (String "|" rest));
      [| done | reflexivity | right; eauto].
    by rewrite Hunion.
  - change (typed_x_path t) with (String "/" (String "/" body)).
    change (String.length (String "/" (String "/" body)))
      with (S (S (String.length body))).
    rewrite parse_union_S.
    change (String.length (String "/" (String "/" body)))
      with (S (S (String.length body))).
    change (parse_path ?f (String "/" ?s)) with (parse_steps f true (String "/" s)).
    rewrite (parse_typed_step _ true AxisDescendant "//" t (String "|" rest));
      [| done | reflexivity | right; eauto].
    by rewrite Hunion.
Qed.

(** The two alternatives that [get_inputs] asks for, [//name] and [name],
    select together what [//name] selects. *)
Lemma xpath_selects_anywhere (doc : Node) (name : string)
  (test : option (string * string)) (el : WebElement) :
  is_element doc = false →
  xpath_selects doc
    [[mkStep AxisDescendant name test]; [mkStep AxisChild name test]] el =
  node_test doc (mkStep AxisDescendant name test) el.
Proof.
  intros Hdoc. unfold xpath_selects. cbn [existsb]. rewrite orb_false_r.
  change (reverse [mkStep AxisDescendant name test])
    with [mkStep AxisDescendant name test].
  change (reverse [mkStep AxisChild name test]) with [mkStep AxisChild name test].
  rewrite selects_descendant_first by done.
  cbn [selects axis].
  change (node_test doc (mkStep AxisChild name test) el)
    with (node_test doc (mkStep AxisDescendant name test) el).
  by destruct (node_test doc _ el).
Qed.

Lemma get_inputs_selected (w : World) (form : option WebElement)
  (itype : option string) (paths : list LocationPath) :
  is_element (page w) = false →
  parse_xpath (get_inputs_x_path form itype) = Some paths →
  Forall (λ p, p ≠ []) paths →
  elements_by_path (get_inputs_x_path form itype) w = (Ok (selected (page w) paths), w) ∧
  (∀ e, e ∈ selected (page w) paths →
        tag_from_element (ArgElement e) w = (Ok (Some (tag_of (page w) e)), w)) ∧
  get_inputs form itype w = (Ok (map (tag_of (page w)) (selected (page w) paths)), w).
Proof.
  intros Hdoc Hparse Hne.
  assert (Hq : elements_by_path (get_inputs_x_path form itype) w =
               (Ok (selected (page w) paths), w))
    by (by rewrite elements_by_path_eq, Hparse).
  pose proof (selected_elements (page w) paths Hne) as Hall.
  split; [done |]. split.
  - intros e He. rewrite Forall_forall in Hall.
    apply tag_from_element_element; auto.
  - unfold get_inputs. rewrite (bind_Ok _ _ _ _ _ Hq).
    by rewrite get_inputs_loop_elements.
Qed.

(** [get_inputs] with a type other than ["select"], not empty and without
    a quote, returns on a document the tags of the [<input>] elements of
    the whole page whose [type] attribute is that string, in document
    order, with a form and without. *)
Theorem get_inputs_by_type (w : World) (form : option WebElement) (t : string) :
  is_element (page w) = false →
  t ≠ "" → t ≠ "select" → no_quote t = true →
  ∃ elems,
    elements_by_path (get_inputs_x_path form (Some t)) w = (Ok elems, w) ∧
    elems = List.filter (input_of_type (page w) t) (descendants_or_self (page w) []) ∧
    (∀ e, e ∈ elems →
          tag_from_element (ArgElement e) w = (Ok (Some (tag_of (page w) e)), w)) ∧
    get_inputs form (Some t) w = (Ok (map (tag_of (page w)) elems), w).
Proof.
  intros Hdoc Hne Hsel Hq.
  destruct (get_inputs_selected w form (Some t) (typed_inputs_paths t) Hdoc)
    as (H1 & H2 & H3).
  { rewrite x_path_shape by done. by apply parse_typed. }
  { by repeat constructor. }
  exists (selected (page w) (typed_inputs_paths t)).
  split; [done |]. split; [| done].
  apply List.filter_ext. intros el. unfold typed_inputs_paths.
  rewrite xpath_selects_anywhere by done. apply node_test_input.
Qed.

Lemma get_inputs_by_type_witness :
  get_inputs None (Some "checkbox") (start checkboxes_page) =
  (Ok ["html:nth-of-type(1) > body:nth-of-type(1) > input:nth-of-type(2)";
       "html:nth-of-type(1) > body:nth-of-type(1) > input:nth-of-type(3)";
       "html:nth-of-type(1) > body:nth-of-type(1) > input:nth-of-type(5)"],
   start checkboxes_page).
Proof.
  destruct (get_inputs_by_type (start checkboxes_page) None "checkbox")
    as (elems & _ & -> & _ & Hget); [reflexivity | done | done | reflexivity |].
  exact Hget.
Defined.

(** [get_inputs] with the type ["select"] returns on a document the tags
    of the [<select>] elements of the whole page, in document order, with a
    form and without. *)
Theorem get_inputs_select (w : World) (form : option WebElement) :
  is_element (page w) = false →
  ∃ elems,
    elements_by_path (get_inputs_x_path form (Some "select")) w = (Ok elems, w) ∧
    elems = List.filter (named (page w) "select") (descendants_or_self (page w) []) ∧
    (∀ e, e ∈ elems →
          tag_from_element (ArgElement e) w = (Ok (Some (tag_of (page w) e)), w)) ∧
    get_inputs form (Some "select") w = (Ok (map (tag_of (page w)) elems), w).
Proof.
  intros Hdoc.
  destruct (get_inputs_selected w form (Some "select") (input_paths "select") Hdoc)
    as (H1 & H2 & H3).
  { by destruct form. }
  { by repeat constructor. }
  exists (selected (page w) (input_paths "select")).
  split; [done |]. split; [| done].
  apply List.filter_ext. intros el.
  change (input_paths "select")
    with [[mkStep AxisDescendant "select" None]; [mkStep AxisChild "select" None]].
  rewrite xpath_selects_anywhere by done. apply node_test_named.
Qed.

Lemma get_inputs_select_witness :
  get_inputs (Some [0; 1; 0]) (Some "select") (start two_forms_page) =
  (Ok ["html:nth-of-type(1) > body:nth-of-type(1) > form:nth-of-type(2) > select:nth-of-type(1)"],
   start two_forms_page).
Proof.
  destruct (get_inputs_select (start two_forms_page) (Some [0; 1; 0]))
    as (elems & _ & -> & _ & Hget); [reflexivity |].
  exact Hget.
Defined.

(** [get_inputs] without a type, or with the empty string for one, returns
    on a document the tags of all [<input>] elements of the page, in
    document order, with a form and without. *)
Theorem get_inputs_all (w : World) (form : option WebElement) (itype : option string) :
  is_element (page w) = false →
  itype = None ∨ itype = Some "" →
  ∃ elems,
    elements_by_path (get_inputs_x_path form itype) w = (Ok elems, w) ∧
    elems = List.filter (named (page w) "input") (descendants_or_self (page w) []) ∧
    (∀ e, e ∈ elems →
          tag_from_element (ArgElement e) w = (Ok (Some (tag_of (page w) e)), w)) ∧
    get_inputs form itype w = (Ok (map (tag_of (page w)) elems), w).
Proof.
  intros Hdoc Hit.
  destruct (get_inputs_selected w form itype all_inputs_paths Hdoc)
    as (H1 & H2 & H3).
  { by destruct Hit as [-> | ->], form. }
  { by repeat constructor. }
  exists (selected (page w) all_inputs_paths).
  split; [done |]. split; [| done].
  apply List.filter_ext. intros el. unfold all_inputs_paths.
  rewrite xpath_selects_anywhere by done. apply node_test_named.
Qed.

Lemma get_inputs_all_witness :
  get_inputs None (Some "") (start checkboxes_page) =
  (Ok ["html:nth-of-type(1) > body:nth-of-type(1) > input:nth-of-type(1)";
       "html:nth-of-type(1) > body:nth-of-type(1) > input:nth-of-type(2)";
       "html:nth-of-type(1) > body:nth-of-type(1) > input:nth-of-type(3)";
       "html:nth-of-type(1) > body:nth-of-type(1) > input:nth-of-type(4)";
       "html:nth-of-type(1) > body:nth-of-type(1) > input:nth-of-type(5)"],
   start checkboxes_page).
Proof.
  destruct (get_inputs_all (start checkboxes_page) None (Some ""))
    as (elems & _ & -> & _ & Hget); [reflexivity | by right |].
  exact Hget.
Defined.

(** ** A tag refers to one element *)

Lemma append_empty_r (a : string) : a +:+ "" = a.
Proof.
  induction a as [|c a IH]; [reflexivity |]. by rewrite append_String, IH.
Qed.

Lemma length_append (a b : string) :
  String.length (a +:+ b) = String.length a + String.length b.
Proof.
  induction a as [|c a IH]; [reflexivity |].
  rewrite append_String. cbn [String.length]. by rewrite IH.
Qed.

Lemma append_inv_r (a1 a2 b : string) : a1 +:+ b = a2 +:+ b → a1 = a2.
Proof.
  intros H. apply (f_equal String.length) in H as Hlen.
  rewrite !length_append in Hlen.
  assert (Hl : String.length a1 = String.length a2) by lia. clear Hlen.
  revert a2 H Hl. induction a1 as [|c a1 IH]; intros [|c2 a2] H Hl;
    try discriminate Hl; [done |].
  rewrite !append_String in H. injection H as -> H.
  f_equal. apply IH; [done |]. by injection Hl.
Qed.

Lemma lacks_append (c : ascii) (a b : string) :
  lacks c (a +:+ b) = lacks c a && lacks c b.
Proof.
  induction a as [|x a IH]; [reflexivity |].
  rewrite append_String. cbn [lacks]. by rewrite IH, andb_assoc.
Qed.

(** Cutting at the first occurrence of a character. *)
Lemma first_occurrence (c : ascii) (a1 a2 x1 x2 : string) :
  lacks c a1 = true → lacks c a2 = true →
  a1 +:+ String c x1 = a2 +:+ String c x2 →
  a1 = a2 ∧ x1 = x2.
Proof.
  revert a2. induction a1 as [|y a1 IH]; intros [|y2 a2] H1 H2 H.
  - by injection H.
  - rewrite append_String in H. injection H as <- _.
    cbn [lacks] in H2. by rewrite Ascii.eqb_refl in H2.
  - rewrite append_String in H. injection H as -> _.
    cbn [lacks] in H1. by rewrite Ascii.eqb_refl in H1.
  - rewrite !append_String in H. injection H as -> H.
    cbn [lacks] in H1, H2.
    apply andb_prop in H1 as [_ H1]. apply andb_prop in H2 as [_ H2].
    destruct (IH a2 H1 H2 H) as [-> ->]. done.
Qed.

Lemma lacks_toLowerCase (s : string) :
  lacks "(" s = true → lacks "(" (toLowerCase s) = true.
Proof.
  induction s as [|c s IH]; [done |]. cbn [lacks toLowerCase].
  intros [Hc Hs]%andb_prop. rewrite IH by done. rewrite andb_true_r.
  revert Hc. clear. destruct c as [[] [] [] [] [] [] [] []]; by vm_compute.
Qed.

Lemma lacks_digits (d : Decimal.uint) :
  lacks ")" (NilEmpty.string_of_uint d) = true.
Proof. induction d; cbn; auto. Qed.

Lemma js_string_of_nat_inj (n m : nat) :
  js_string_of_nat n = js_string_of_nat m → n = m.
Proof.
  unfold js_string_of_nat. intros H.
  apply (f_equal NilEmpty.uint_of_string) in H.
  rewrite !NilEmpty.usu in H. injection H as H.
  by apply DecimalNat.Unsigned.to_uint_inj.
Qed.

(** A level is cut at its ["("] and its [")"]: what follows a level in a
    string, and the name and the number of the level, are determined. *)
Lemma level_cut (nm1 nm2 : string) (N1 N2 : nat) (r1 r2 : string) :
  lacks "(" nm1 = true → lacks "(" nm2 = true →
  (nm1 +:+ ":nth-of-type(" +:+ js_string_of_nat N1 +:+ ")") +:+ r1 =
  (nm2 +:+ ":nth-of-type(" +:+ js_string_of_nat N2 +:+ ")") +:+ r2 →
  nm1 = nm2 ∧ N1 = N2 ∧ r1 = r2.
Proof.
  intros H1 H2 H.
  assert (Hshape : ∀ nm N r,
    (nm +:+ ":nth-of-type(" +:+ js_string_of_nat N +:+ ")") +:+ r =
    (nm +:+ ":nth-of-type") +:+ String "(" (js_string_of_nat N +:+ String ")" r)).
  { intros nm N r. rewrite !string_app_assoc. reflexivity. }
  rewrite !Hshape in H.
  apply first_occurrence in H as [Ha H];
    [| by rewrite lacks_append, ?H1, ?H2 ..].
  apply append_inv_r in Ha.
  apply first_occurrence in H as [Hd Hr]; [| apply lacks_digits ..].
  apply js_string_of_nat_inj in Hd. done.
Qed.

Lemma level_format (doc : Node) (el : WebElement) :
  plain_element_at doc el = true →
  level doc el = format_level (level_key doc el) ∧
  lacks "(" (fst (level_key doc el)) = true.
Proof.
  unfold plain_element_at, level, level_key.
  destruct (resolve doc el) as [n|]; [| done].
  intros [_ Hn]%andb_prop. split; [done |]. by apply lacks_toLowerCase.
Qed.

Lemma join_cons_rest (sep x : string) (parts : list string) :
  join sep (x :: parts) = x +:+ join_rest sep parts.
Proof.
  destruct parts as [|y parts]; [by rewrite append_empty_r | reflexivity].
Qed.

(** Joined levels determine the levels. *)
Lemma join_levels_inj (ks1 ks2 : list (string * nat)) :
  Forall (λ k, lacks "(" (fst k) = true) ks1 →
  Forall (λ k, lacks "(" (fst k) = true) ks2 →
  join " > " (map format_level ks1) = join " > " (map format_level ks2) →
  ks1 = ks2.
Proof.
  intros H1. revert ks2. induction H1 as [|[nm1 N1] ks1 Hk1 H1 IH];
    intros ks2 H2 Hj; destruct H2 as [|[nm2 N2] ks2 Hk2 H2].
  - done.
  - exfalso. cbn [map] in Hj. rewrite join_cons_rest in Hj.
    symmetry in Hj. apply append_empty_inv in Hj as [Hj _].
    apply append_empty_inv in Hj as [_ Hj]. discriminate Hj.
  - exfalso. cbn [map] in Hj. rewrite join_cons_rest in Hj.
    apply append_empty_inv in Hj as [Hj _].
    apply append_empty_inv in Hj as [_ Hj]. discriminate Hj.
  - cbn [map] in Hj. rewrite !join_cons_rest in Hj.
    unfold format_level at 1 3 in Hj. cbn [fst snd] in Hj, Hk1, Hk2.
    apply level_cut in Hj as (-> & -> & Hrest); [| done ..].
    f_equal. apply IH; [done |].
    destruct ks1 as [|k1 ks1], ks2 as [|k2 ks2]; cbn [map join_rest] in Hrest.
    + done.
    + discriminate Hrest.
    + discriminate Hrest.
    + by injection Hrest.
Qed.

Lemma filter_take_lt {A} (f : A → bool) (l : list A) (i j : nat) (x : A) :
  i < j → l !! i = Some x → f x = true →
  length (List.filter f (take i l)) < length (List.filter f (take j l)).
Proof.
  revert i j. induction l as [|a l IH]; intros i j Hij Hx Hf; [done |].
  destruct j as [|j]; [lia |]. destruct i as [|i].
  - injection Hx as ->. cbn [take List.filter]. rewrite Hf. cbn [length]. lia.
  - cbn [take List.filter]. specialize (IH i j ltac:(lia) Hx Hf).
    destruct (f a); cbn [length]; lia.
Qed.

(** Among the children of one node, the name and the number of a level
    determine the child. *)
Lemma level_key_sibling_inj (doc : Node) (parent : WebElement) (i j : nat) :
  element_at doc (i :: parent) = true →
  element_at doc (j :: parent) = true →
  level_key doc (i :: parent) = level_key doc (j :: parent) →
  i = j.
Proof.
  intros Hi Hj. unfold level_key, ordinal.
  destruct (element_at_resolve _ _ Hi) as (ni & Hni & Hei).
  destruct (element_at_resolve _ _ Hj) as (nj & Hnj & Hej).
  rewrite Hni, Hnj.
  destruct (resolve_parent _ _ _ _ Hni) as (p & Hp & Hci).
  destruct (resolve_parent _ _ _ _ Hnj) as (p' & Hp' & Hcj).
  assert (p' = p) as -> by congruence. rewrite Hp.
  intros [= Hname Hcount]. rewrite <- Hname in Hcount.
  assert (Hsi : shares_tag_name (tagname ni) ni = true)
    by (unfold shares_tag_name; by rewrite Hei, String.eqb_refl).
  assert (Hsj : shares_tag_name (tagname ni) nj = true)
    by (unfold shares_tag_name; by rewrite Hej, Hname, String.eqb_refl).
  destruct (Nat.lt_trichotomy i j) as [Hlt | [-> | Hlt]]; [| done |].
  - pose proof (filter_take_lt _ _ _ _ _ Hlt Hci Hsi). lia.
  - pose proof (filter_take_lt _ _ _ _ _ Hlt Hcj Hsj). lia.
Qed.

Lemma level_keys_inj (doc : Node) (el1 el2 : WebElement) :
  forallb (element_at doc) (path_to_root el1) = true →
  forallb (element_at doc) (path_to_root el2) = true →
  map (level_key doc) (path_to_root el1) = map (level_key doc) (path_to_root el2) →
  el1 = el2.
Proof.
  revert el2. induction el1 as [|i p1 IH]; intros [|j p2] H1 H2 Hk;
    try discriminate Hk; [done |].
  cbn [path_to_root forallb map] in *.
  apply andb_prop in H1 as [Hi H1]. apply andb_prop in H2 as [Hj H2].
  injection Hk as Hk Hrest.
  assert (p2 = p1) as -> by (symmetry; by apply IH).
  f_equal. by eapply level_key_sibling_inj.
Qed.

Lemma forallb_plain_element (doc : Node) (l : list WebElement) :
  forallb (plain_element_at doc) l = true → forallb (element_at doc) l = true.
Proof.
  rewrite !forallb_forall. intros H a Ha. specialize (H a Ha).
  unfold plain_element_at in H. unfold element_at.
  destruct (resolve doc a); [| done]. by apply andb_prop in H as [? _].
Qed.

Lemma css_path_keys (doc : Node) (el : WebElement) :
  forallb (plain_element_at doc) (path_to_root el) = true →
  css_path doc el =
    join " > " (map format_level (map (level_key doc) (reverse (path_to_root el)))) ∧
  Forall (λ k, lacks "(" (fst k) = true)
    (map (level_key doc) (reverse (path_to_root el))).
Proof.
  intros Hall. rewrite forallb_forall in Hall. split.
  - unfold css_path. f_equal. rewrite map_map. apply map_ext_in.
    intros a Ha. apply level_format, Hall.
    by rewrite <- list_elem_of_In, <- elem_of_reverse, list_elem_of_In.
  - apply Forall_forall. intros k Hk.
    apply list_elem_of_In, in_map_iff in Hk as (a & <- & Ha).
    apply level_format, Hall.
    by rewrite <- list_elem_of_In, <- elem_of_reverse, list_elem_of_In.
Qed.

Lemma map_reverse_eq {A B} (f : A → B) (l : list A) :
  map f (reverse l) = reverse (map f l).
Proof.
  induction l as [|a l IH]; [done |].
  cbn [map]. by rewrite !reverse_cons, map_app, IH.
Qed.

Lemma tag_positions_inj (w : World) (el1 el2 : WebElement) (t : string) :
  is_element (page w) = false →
  forallb (plain_element_at (page w)) (path_to_root el1) = true →
  forallb (plain_element_at (page w)) (path_to_root el2) = true →
  tag_from_element (ArgElement el1) w = (Ok (Some t), w) →
  tag_from_element (ArgElement el2) w = (Ok (Some t), w) →
  el1 = el2.
Proof.
  intros Hdoc H1 H2 Ht1 Ht2.
  assert (Htag : ∀ el,
    forallb (plain_element_at (page w)) (path_to_root el) = true →
    tag_from_element (ArgElement el) w = (Ok (Some t), w) →
    t = css_path (page w) el).
  { intros el Hall Ht.
    pose proof (forallb_plain_element _ _ Hall) as Hel.
    destruct el as [|i parent].
    - rewrite tag_from_element_eq in Ht. cbn in Ht. rewrite Hdoc in Ht.
      discriminate Ht.
    - assert (He : element_at (page w) (i :: parent) = true)
        by (cbn [path_to_root forallb] in Hel; by apply andb_prop in Hel as [? _]).
      rewrite tag_from_element_element in Ht by done.
      injection Ht as <-. unfold tag_of, css_path.
      by rewrite levels_from_path_to_root. }
  pose proof (Htag el1 H1 Ht1) as E1. pose proof (Htag el2 H2 Ht2) as E2.
  destruct (css_path_keys _ _ H1) as [K1 F1].
  destruct (css_path_keys _ _ H2) as [K2 F2].
  rewrite K1 in E1. rewrite K2 in E2. rewrite E1 in E2.
  apply join_levels_inj in E2; [| done ..].
  apply level_keys_inj with (doc := page w);
    [by apply forallb_plain_element | by apply forallb_plain_element |].
  rewrite !map_reverse_eq in E2. apply (f_equal reverse) in E2.
  by rewrite !reverse_involutive in E2.
Qed.

(** On a page that is a document, two elements whose ancestors below the
    root are elements, with names that have no ["("], and for which
    [tag_from_element] returns the same tag, are the same element: a tag
    refers to one element of the page. *)
Theorem tags_unique (w : World) (el1 el2 : WebElement) (t : string) :
  is_element (page w) = false →
  forallb (plain_element_at (page w)) (path_to_root el1) = true →
  forallb (plain_element_at (page w)) (path_to_root el2) = true →
  tag_from_element (ArgElement el1) w = (Ok (Some t), w) →
  tag_from_element (ArgElement el2) w = (Ok (Some t), w) →
  el1 = el2.
Proof. apply tag_positions_inj. Qed.

Lemma tags_unique_witness :
  tag_from_element (ArgElement [2; 1; 0]) (start two_forms_page) =
    (Ok (Some "html:nth-of-type(1) > body:nth-of-type(1) > form:nth-of-type(2)"),
     start two_forms_page) ∧
  ([2; 1; 0] : WebElement) = [2; 1; 0].
Proof.
  split; [reflexivity |].
  apply (tags_unique (start two_forms_page) [2; 1; 0] [2; 1; 0]
           "html:nth-of-type(1) > body:nth-of-type(1) > form:nth-of-type(2)");
    reflexivity.
Defined.

(** ** The positions of a page *)

Lemma descendants_or_self_eq (n : Node) (el : WebElement) :
  descendants_or_self n el = el :: children_from (childNodes n) 0 el.
Proof.
  destruct n as [ty nm at_ d e cs]. cbn [descendants_or_self childNodes].
  f_equal. generalize 0. induction cs as [|c cs IH]; intros i; [done |].
  cbn [children_from]. by rewrite IH.
Qed.

Lemma Node_induction (P : Node → Prop) :
  (∀ n, Forall P (childNodes n) → P n) → ∀ n, P n.
Proof.
  intros H. fix IH 1. intros [ty nm at_ d e cs]. apply H.
  cbn [childNodes]. induction cs as [|c cs IHcs]; constructor; [apply IH | done].
Qed.

(** A position below [el] ends with [el] and is longer. *)
Lemma descendants_suffix (n : Node) :
  ∀ el x, x ∈ descendants_or_self n el → ∃ y, x = y ++ el.
Proof.
  induction n as [n IH] using Node_induction. intros el x.
  rewrite descendants_or_self_eq, elem_of_cons. intros [-> | Hx].
  - by exists [].
  - revert Hx. generalize 0. induction IH as [|c cs Hc _ IHcs]; intros i.
    + by rewrite elem_of_nil.
    + cbn [children_from]. rewrite elem_of_app. intros [Hx | Hx].
      * destruct (Hc _ _ Hx) as [y ->]. exists (y ++ [i]).
        by rewrite <- app_assoc.
      * by eapply IHcs.
Qed.

Lemma children_from_index (cs : list Node) (i : nat) (el x : WebElement) :
  x ∈ children_from cs i el → ∃ y j, x = y ++ j :: el ∧ (i ≤ j)%nat.
Proof.
  revert i. induction cs as [|c cs IH]; intros i; cbn [children_from].
  - by rewrite elem_of_nil.
  - rewrite elem_of_app. intros [Hx | Hx].
    + destruct (descendants_suffix _ _ _ Hx) as [y ->]. by exists y, i.
    + destruct (IH _ Hx) as (y & j & -> & Hj). exists y, j. split; [done | lia].
Qed.

Lemma descendants_NoDup (n : Node) : ∀ el, NoDup (descendants_or_self n el).
Proof.
  induction n as [n IH] using Node_induction. intros el.
  rewrite descendants_or_self_eq. apply NoDup_cons. split.
  - intros Hx. destruct (children_from_index _ _ _ _ Hx) as (y & j & Hy & _).
    apply (f_equal length) in Hy. rewrite length_app in Hy. cbn in Hy. lia.
  - generalize 0. induction IH as [|c cs Hc _ IHcs]; intros i;
      cbn [children_from]; [constructor |].
    apply NoDup_app. split; [apply Hc |]. split; [| apply IHcs].
    intros x Hx1 Hx2.
    destruct (descendants_suffix _ _ _ Hx1) as [y ->].
    destruct (children_from_index _ _ _ _ Hx2) as (y' & j & Hy & Hj).
    change (y ++ i :: el) with (y ++ [i] ++ el) in Hy.
    change (y' ++ j :: el) with (y' ++ [j] ++ el) in Hy.
    rewrite !app_assoc in Hy. apply app_inv_tail in Hy.
    apply app_inj_tail in Hy as [_ ->]. lia.
Qed.

Lemma selected_NoDup (doc : Node) (paths : list LocationPath) :
  NoDup (selected doc paths).
Proof.
  unfold selected. apply NoDup_ListNoDup, List.NoDup_filter, NoDup_ListNoDup.
  apply descendants_NoDup.
Qed.

(** On a well-formed page the tags of distinct elements differ. *)
Lemma tag_of_inj (doc : Node) (el1 el2 : WebElement) :
  well_formed doc = true →
  el1 ∈ descendants_or_self doc [] → el2 ∈ descendants_or_self doc [] →
  element_at doc el1 = true → element_at doc el2 = true →
  tag_of doc el1 = tag_of doc el2 → el1 = el2.
Proof.
  intros [Hdoc Hall]%andb_prop H1 H2 He1 He2 Ht.
  apply negb_true_iff in Hdoc. rewrite forallb_forall in Hall.
  assert (Hp : ∀ el, el ∈ descendants_or_self doc [] → element_at doc el = true →
                     forallb (plain_element_at doc) (path_to_root el) = true).
  { intros el Hel He. apply list_elem_of_In, Hall in Hel.
    rewrite He in Hel. exact Hel. }
  apply (tag_positions_inj (start doc) el1 el2 (tag_of doc el1));
    [done | by apply Hp | by apply Hp | |].
  - by apply tag_from_element_element.
  - rewrite Ht. by apply tag_from_element_element.
Qed.

Lemma tags_NoDup (doc : Node) (elems : list WebElement) :
  well_formed doc = true →
  NoDup elems →
  Forall (λ el, el ∈ descendants_or_self doc [] ∧ element_at doc el = true) elems →
  NoDup (map (tag_of doc) elems).
Proof.
  intros Hwf Hnd Hall. induction Hnd as [|e elems Hnin Hnd IH]; [constructor |].
  apply Forall_cons in Hall as [[He1 He2] Hall].
  cbn [map]. apply NoDup_cons. split; [| by apply IH].
  rewrite list_elem_of_In, in_map_iff. intros (e' & Ht & Hin).
  apply list_elem_of_In in Hin as Hin'.
  rewrite Forall_forall in Hall. destruct (Hall e' Hin') as [He1' He2'].
  assert (e' = e) as -> by (by apply (tag_of_inj doc)). done.
Qed.

Lemma selected_in_page (doc : Node) (paths : list LocationPath) :
  Forall (λ p, p ≠ []) paths →
  Forall (λ el, el ∈ descendants_or_self doc [] ∧ element_at doc el = true)
    (selected doc paths).
Proof.
  intros Hne. apply Forall_forall. intros el Hel.
  apply list_elem_of_In, filter_In in Hel as [Hin Hsel].
  split; [by apply list_elem_of_In |]. by eapply xpath_selects_element.
Qed.

(** ** No tag twice *)

Lemma parse_steps_nonempty (fuel : nat) (first : bool) (s : string)
  (p : LocationPath) (r : string) :
  parse_steps fuel first s = Some (p, r) → p ≠ [].
Proof.
  destruct fuel as [|fuel]; [done |]. cbn [parse_steps].
  destruct (parse_axis first s) as [[ax s1]|]; [| done].
  destruct (span is_name_char s1) as [nm s2].
  destruct nm as [|c nm]; [done |].
  destruct (parse_attribute_test s2) as [[at_ s3]|]; [| done].
  destruct (parse_steps fuel false s3) as [[sts rest]|];
    repeat case_match; intros [= <- _]; done.
Qed.

Lemma parse_union_nonempty (fuel : nat) (s : string) (paths : list LocationPath) :
  parse_union fuel s = Some paths → Forall (λ p, p ≠ []) paths.
Proof.
  revert s paths. induction fuel as [|fuel IH]; intros s paths; [done |].
  rewrite parse_union_S.
  destruct (parse_path (String.length s) s) as [[p r]|] eqn:Hp; [| done].
  assert (Hne : p ≠ []).
  { unfold parse_path in Hp. repeat case_match; by eapply parse_steps_nonempty. }
  destruct r as [|c rest]; [intros [= <-]; by repeat constructor |].
  destruct (parse_union fuel rest) as [ps|] eqn:Hu;
    repeat case_match; try done; intros [= <-];
    constructor; [done | by eapply IH].
Qed.

Lemma well_formed_document (doc : Node) :
  well_formed doc = true → is_element doc = false.
Proof. by intros [?%negb_true_iff _]%andb_prop. Qed.

Lemma get_inputs_eq (w : World) (form : option WebElement) (itype : option string) :
  is_element (page w) = false →
  get_inputs form itype w =
  match parse_xpath (get_inputs_x_path form itype) with
  | Some paths => (Ok (map (tag_of (page w)) (selected (page w) paths)), w)
  | None => (Raise InvalidSelectorException, w)
  end.
Proof.
  intros Hdoc. unfold get_inputs.
  destruct (parse_xpath (get_inputs_x_path form itype)) as [paths|] eqn:Hp.
  - erewrite bind_Ok by (by rewrite elements_by_path_eq, Hp).
    rewrite get_inputs_loop_elements; [done | done |].
    by eapply selected_elements, parse_union_nonempty.
  - erewrite bind_Raise; [done |]. by rewrite elements_by_path_eq, Hp.
Qed.

(** On a well-formed page no tag comes twice in what [get_inputs] and
    [get_buttons] return. *)
Theorem no_tag_twice (w : World) (in_form : bool) :
  well_formed (page w) = true →
  (∀ form itype tags w',
     get_inputs form itype w = (Ok tags, w') → NoDup tags) ∧
  ∃ tags, get_buttons in_form w = (Ok tags, w) ∧ NoDup tags.
Proof.
  intros Hwf. pose proof (well_formed_document _ Hwf) as Hdoc. split.
  - intros form itype tags w'. rewrite get_inputs_eq by done.
    destruct (parse_xpath _) as [paths|] eqn:Hp; [| done].
    intros [= <- <-]. apply tags_NoDup; [done | apply selected_NoDup |].
    by eapply selected_in_page, parse_union_nonempty.
  - eexists. split; [by apply get_buttons_eq |].
    apply tags_NoDup; [done | |].
    + apply NoDup_ListNoDup, List.NoDup_filter, NoDup_ListNoDup, selected_NoDup.
    + apply Forall_forall. intros e [He _]%list_elem_of_In%filter_In.
      pose proof (selected_in_page (page w) buttons_paths
                    ltac:(by repeat constructor)) as Hall.
      rewrite Forall_forall in Hall. by apply Hall, list_elem_of_In.
Qed.

Lemma no_tag_twice_witness :
  NoDup
    ["html:nth-of-type(1) > body:nth-of-type(1) > form:nth-of-type(1) > input:nth-of-type(1)";
     "html:nth-of-type(1) > body:nth-of-type(1) > form:nth-of-type(2) > input:nth-of-type(1)";
     "html:nth-of-type(1) > body:nth-of-type(1) > form:nth-of-type(2) > input:nth-of-type(2)";
     "html:nth-of-type(1) > body:nth-of-type(1) > form:nth-of-type(2) > input:nth-of-type(3)"].
Proof.
  destruct (no_tag_twice (start two_forms_page) false) as [Hi _]; [reflexivity |].
  apply (Hi None None _ (start two_forms_page)). reflexivity.
Defined.

Lemma size_foldl_insert {A V} (f : A → string) (v : V) (l : list A)
  (m : gmap string V) :
  NoDup (map f l) → (∀ a, a ∈ l → m !! f a = None) →
  size (foldl (λ m e, <[f e := v]> m) m l) = size m + length l.
Proof.
  revert m. induction l as [|a l IH]; intros m Hnd Hm; cbn [foldl map length].
  - lia.
  - cbn [map] in Hnd. apply NoDup_cons in Hnd as [Hnin Hnd].
    rewrite IH; [| done |].
    + rewrite map_size_insert_None by (apply Hm; rewrite elem_of_cons; auto). lia.
    + intros b Hb. rewrite lookup_insert_ne.
      * apply Hm. rewrite elem_of_cons. auto.
      * intros Heq. apply Hnin. rewrite Heq, list_elem_of_In.
        by apply in_map, list_elem_of_In.
Qed.

(** On a well-formed page the mapping of [get_forms] has one key for each
    form that is displayed and enabled: no two forms share a tag. *)
Theorem get_forms_one_key_per_form (w : World) :
  well_formed (page w) = true →
  ∃ forms fs,
    elements_by_path "//form" w = (Ok forms, w) ∧
    get_forms w = (Ok fs, w) ∧
    size fs = length (List.filter (displayed_and_enabled (page w)) forms).
Proof.
  intros Hwf. pose proof (well_formed_document _ Hwf) as Hdoc.
  eexists _, _.
  split; [by rewrite elements_by_path_eq, parse_forms |].
  split; [by apply get_forms_eq |].
  rewrite size_foldl_insert; [by rewrite map_size_empty | | by intros; apply lookup_empty].
  apply tags_NoDup; [done | |].
  - apply NoDup_ListNoDup, List.NoDup_filter, NoDup_ListNoDup, selected_NoDup.
  - apply Forall_forall. intros e [He _]%list_elem_of_In%filter_In.
    pose proof (selected_in_page (page w) forms_paths
                  ltac:(by repeat constructor)) as Hall.
    rewrite Forall_forall in Hall. by apply Hall, list_elem_of_In.
Qed.

Lemma get_forms_one_key_per_form_witness :
  ∃ fs, get_forms (start two_forms_page) = (Ok fs, start two_forms_page) ∧
        size fs = 2.
Proof.
  destruct (get_forms_one_key_per_form (start two_forms_page))
    as (forms & fs & Hforms & Hfs & Hsize); [reflexivity |].
  exists fs. split; [exact Hfs |].
  vm_compute in Hforms. injection Hforms as <-. exact Hsize.
Defined.

(** ** Nothing is logged on a document *)

(** On a page that is a document, [get_inputs], [get_forms] and
    [get_buttons] leave the world as it was: every element they query has a
    tag, so the warning for a missing tag is never logged; and
    [get_inputs] either returns or raises [InvalidSelectorException]. *)
Theorem enumerations_log_nothing (w : World) (form : option WebElement)
  (itype : option string) (in_form : bool) :
  is_element (page w) = false →
  snd (get_inputs form itype w) = w ∧
  snd (get_forms w) = w ∧
  snd (get_buttons in_form w) = w ∧
  ((∃ tags, fst (get_inputs form itype w) = Ok tags) ∨
   fst (get_inputs form itype w) = Raise InvalidSelectorException).
Proof.
  intros Hdoc. rewrite get_inputs_eq, get_forms_eq, (get_buttons_eq w in_form) by done.
  destruct (parse_xpath _); cbn [fst snd]; eauto 6.
Qed.

Lemma enumerations_log_nothing_witness :
  snd (get_inputs (Some [0; 1; 0]) (Some "it's") (start two_forms_page)) =
    start two_forms_page ∧
  snd (get_forms (start two_forms_page)) = start two_forms_page ∧
  snd (get_buttons true (start two_forms_page)) = start two_forms_page ∧
  ((∃ tags, fst (get_inputs (Some [0; 1; 0]) (Some "it's") (start two_forms_page)) =
            Ok tags) ∨
   fst (get_inputs (Some [0; 1; 0]) (Some "it's") (start two_forms_page)) =
   Raise InvalidSelectorException).
Proof.
  apply (enumerations_log_nothing (start two_forms_page)). reflexivity.
Defined.
